(** * Stock management: inventory formulas, ABC classification, inventory state

    A shallow embedding of [src/stock_management/models.py] and
    [src/stock_management/algorithms.py], with the properties the
    specification states about them.

    Numbers.  The Python code computes on [int] and [float] values without
    telling them apart.  The code is embedded twice.  In the first
    embedding every number is an exact rational ([Qc], the canonical
    rationals, whose equality is Leibniz equality) and [math.sqrt] returns
    a real number ([R]); it carries the classes of [models.py], the checks
    of the arguments and the statements in which rounding plays no part.
    The second embedding, [Binary64], is on the binary64 floats of the
    implementation ([PrimFloat]), with their rounding, infinities and NaN;
    it carries the statements about the number a formula returns, about
    the nearest service level and about the ABC classes, which all depend
    on how Python rounds.

    Errors.  A Python call either returns a value or raises; a function is
    embedded as a function into [result], and a method that mutates [self]
    returns the outcome together with the state it leaves behind. *)

From Stdlib Require Import Floats.
From Stdlib Require Import QArith Qcanon Reals Qreals Lqa Lra.
From stdpp Require Import base decidable option list sorting strings gmap fin_maps numbers.

#[local] Open Scope Z_scope.
#[local] Open Scope Qc_scope.

(** ** Numbers *)

(** Integer literals of the source are read through this coercion;
    [ratio n d] is the decimal literal [n/d]. *)
#[local] Coercion Qc_of_Z : Z >-> Qc.

Definition ratio (n : Z) (d : positive) : Qc := Q2Qc (n # d).

(** The real number a rational stands for. *)
Definition Qc2R (x : Qc) : R := Q2R x.
Arguments Qc2R x%_Qc_scope.

(** Python's [abs]. *)
Definition py_abs (x : Qc) : Qc := if decide (x < 0) then - x else x.

(** ** Exceptions and results *)

(** The text of an exception.  [CannotRemove] is the f-string of
    [Inventory.remove_stock], kept as the two numbers it prints. *)
Inductive message : Type :=
| Msg (text : string)
| CannotRemove (quantity available : Qc).

Inductive exn : Type :=
| ValueError (m : message)
| ZeroDivisionError
| KeyError.

Inductive result (A : Type) : Type :=
| Ok (a : A)
| Raise (e : exn).
Arguments Ok {A} a.
Arguments Raise {A} e.

#[global] Instance result_ret : MRet result := fun _ a => Ok a.
#[global] Instance result_bind : MBind result := fun _ _ f r =>
  match r with
  | Ok a => f a
  | Raise e => Raise e
  end.

Definition raises_ValueError {A} (r : result A) : Prop :=
  exists m, r = Raise (ValueError m).
Definition returns {A} (r : result A) : Prop := exists a, r = Ok a.

(** Python's [a / b]: true division, which raises on a zero divisor. *)
Definition truediv (a b : Qc) : result Qc :=
  if decide (b = 0) then Raise ZeroDivisionError else Ok (a / b).

(** [math.sqrt]: a [ValueError] ("math domain error") below zero. *)
Definition math_sqrt (x : Qc) : result R :=
  if decide (x < 0) then Raise (ValueError (Msg "math domain error"))
  else Ok (sqrt (Qc2R x)).

(** ** algorithms.py *)

Module EOQAlgorithm.

Definition calculate (annual_demand ordering_cost holding_cost : Qc) : result R :=
  if decide (annual_demand ≤ 0) then
    Raise (ValueError (Msg "Annual demand must be positive"))
  else if decide (ordering_cost < 0) then
    Raise (ValueError (Msg "Ordering cost cannot be negative"))
  else if decide (holding_cost ≤ 0) then
    Raise (ValueError (Msg "Holding cost must be positive"))
  else
    x ← truediv (2 * annual_demand * ordering_cost) holding_cost;
    eoq ← math_sqrt x;
    Ok eoq.

Definition calculate_total_cost
    (annual_demand ordering_cost holding_cost order_quantity : Qc)
    : result (Qc * Qc * Qc) :=
  if decide (order_quantity ≤ 0) then
    Raise (ValueError (Msg "Order quantity must be positive"))
  else
    number_of_orders ← truediv annual_demand order_quantity;
    let total_ordering_cost := number_of_orders * ordering_cost in
    half ← truediv order_quantity 2;
    let total_holding_cost := half * holding_cost in
    let total_cost := total_ordering_cost + total_holding_cost in
    Ok (total_cost, total_ordering_cost, total_holding_cost).

Definition calculate_reorder_frequency (annual_demand eoq : Qc) : result Qc :=
  if decide (0 < eoq) then truediv annual_demand eoq else Ok 0.

End EOQAlgorithm.

Module ReorderPointAlgorithm.

Definition calculate (daily_demand lead_time_days safety_stock : Qc) : result Qc :=
  if decide (daily_demand < 0) then
    Raise (ValueError (Msg "Daily demand cannot be negative"))
  else if decide (lead_time_days < 0) then
    Raise (ValueError (Msg "Lead time cannot be negative"))
  else if decide (safety_stock < 0) then
    Raise (ValueError (Msg "Safety stock cannot be negative"))
  else
    let rop := (daily_demand * lead_time_days) + safety_stock in
    Ok rop.

Definition calculate_from_annual
    (annual_demand lead_time_days safety_stock working_days : Qc) : result Qc :=
  if decide (working_days ≤ 0) then
    Raise (ValueError (Msg "Working days must be positive"))
  else
    daily_demand ← truediv annual_demand working_days;
    calculate daily_demand lead_time_days safety_stock.

End ReorderPointAlgorithm.

(** Python's [min(iterable, key=...)]: the first element whose key is
    smallest; a later element replaces the current one only when its key is
    strictly smaller. *)
Fixpoint min_from {A} (key : A → Qc) (best : A) (l : list A) : A :=
  match l with
  | [] => best
  | x :: l' => min_from key (if decide (key x < key best) then x else best) l'
  end.

Definition py_min {A} (key : A → Qc) (l : list A) : result A :=
  match l with
  | [] => Raise (ValueError (Msg "min() arg is an empty sequence"))
  | x :: l' => Ok (min_from key x l')
  end.

(** A dict literal whose iteration order matters is an association list in
    insertion order. *)
Fixpoint dict_get {V} (d : list (Qc * V)) (k : Qc) : option V :=
  match d with
  | [] => None
  | (k', v) :: d' => if decide (k' = k) then Some v else dict_get d' k
  end.

Definition dict_getitem {V} (d : list (Qc * V)) (k : Qc) : result V :=
  match dict_get d k with
  | Some v => Ok v
  | None => Raise KeyError
  end.

Definition dict_keys {V} (d : list (Qc * V)) : list Qc := d.*1.

Module SafetyStockAlgorithm.

Definition calculate (service_level_z demand_std_dev lead_time_days : Qc) : result R :=
  if decide (service_level_z < 0) then
    Raise (ValueError (Msg "Service level Z-score cannot be negative"))
  else if decide (demand_std_dev < 0) then
    Raise (ValueError (Msg "Standard deviation cannot be negative"))
  else if decide (lead_time_days < 0) then
    Raise (ValueError (Msg "Lead time cannot be negative"))
  else
    root ← math_sqrt lead_time_days;
    let safety_stock := (Qc2R (service_level_z * demand_std_dev) * root)%R in
    Ok safety_stock.

Definition service_levels : list (Qc * Qc) :=
  [ (50 : Qc, ratio 0 100);
    (75 : Qc, ratio 67 100);
    (80 : Qc, ratio 84 100);
    (85 : Qc, ratio 104 100);
    (90 : Qc, ratio 128 100);
    (95 : Qc, ratio 165 100);
    (97 : Qc, ratio 188 100);
    (98 : Qc, ratio 205 100);
    (99 : Qc, ratio 233 100);
    (ratio 995 10, ratio 258 100);
    (ratio 999 10, ratio 309 100) ].

Definition get_z_score_for_service_level (service_level_percent : Qc) : result Qc :=
  match dict_get service_levels service_level_percent with
  | Some z => Ok z
  | None =>
      closest ← py_min (λ x, py_abs (x - service_level_percent))
                       (dict_keys service_levels);
      dict_getitem service_levels closest
  end.

End SafetyStockAlgorithm.

(** [list.sort(key=..., reverse=True)] on the (product_id, value) pairs:
    descending by value, and stable, so that pairs of equal value keep their
    input order.  The element in front is moved right past the strictly
    greater values only. *)
Fixpoint insert_desc (x : string * Qc) (l : list (string * Qc)) : list (string * Qc) :=
  match l with
  | [] => [x]
  | y :: l' => if decide (x.2 < y.2) then y :: insert_desc x l' else x :: y :: l'
  end.

Fixpoint sort_desc (l : list (string * Qc)) : list (string * Qc) :=
  match l with
  | [] => []
  | x :: l' => insert_desc x (sort_desc l')
  end.

(** Python's [sum]: from 0, left to right. *)
Definition py_sum (l : list Qc) : Qc := foldl Qcplus 0 l.

(** A [for] loop whose body may raise. *)
Fixpoint for_each {S A} (body : S → A → result S) (s : S) (l : list A) : result S :=
  match l with
  | [] => Ok s
  | x :: l' => s' ← body s x; for_each body s' l'
  end.

Module ABCAnalysisAlgorithm.

Definition item_values (items : list (string * Qc * Qc)) : list (string * Qc) :=
  (λ '(product_id, unit_cost, annual_demand),
     let total_value := unit_cost * annual_demand in
     (product_id, total_value)) <$> items.

(** One iteration of the classification loop; the state is the dict
    [classification] and [cumulative_value]. *)
Definition classify (total_value : Qc) (st : gmap string string * Qc)
    (item : string * Qc) : result (gmap string string * Qc) :=
  let '(classification, cumulative_value) := st in
  let '(product_id, value) := item in
  q ← truediv cumulative_value total_value;
  let current_cumulative_percent := q * 100 in
  let classification :=
    if decide (current_cumulative_percent < 80) then
      <[product_id := "A"]> classification
    else if decide (current_cumulative_percent < 95) then
      <[product_id := "B"]> classification
    else
      <[product_id := "C"]> classification in
  Ok (classification, cumulative_value + value).

Definition calculate (items : list (string * Qc * Qc)) : result (gmap string string) :=
  match items with
  | [] => Ok ∅
  | _ :: _ =>
      let item_values := sort_desc (item_values items) in
      let total_value := py_sum item_values.*2 in
      st ← for_each (classify total_value) (∅, 0) item_values;
      Ok st.1
  end.

End ABCAnalysisAlgorithm.

(** ** models.py *)

(** [datetime] values are opaque to the code; a timestamp is the instant the
    caller's clock supplied. *)
Definition datetime : Type := Z.

Module Demand.

Record t : Type := Build
  { product_id : string;
    quantity : Qc;
    timestamp : datetime }.

(** The dataclass constructor followed by [__post_init__]. *)
Definition new (product_id : string) (quantity : Qc) (timestamp : datetime) : result t :=
  if decide (quantity < 0) then
    Raise (ValueError (Msg "Demand quantity cannot be negative"))
  else Ok (Build product_id quantity timestamp).

End Demand.

Module Order.

Record t : Type := Build
  { product_id : string;
    quantity : Qc;
    order_cost : Qc;
    lead_time_days : Qc;
    timestamp : datetime }.

Definition new (product_id : string) (quantity order_cost lead_time_days : Qc)
    (timestamp : datetime) : result t :=
  if decide (quantity ≤ 0) then
    Raise (ValueError (Msg "Order quantity must be positive"))
  else if decide (order_cost < 0) then
    Raise (ValueError (Msg "Order cost cannot be negative"))
  else if decide (lead_time_days < 0) then
    Raise (ValueError (Msg "Lead time cannot be negative"))
  else Ok (Build product_id quantity order_cost lead_time_days timestamp).

Definition total_cost (self : t) : Qc := order_cost self.

End Order.

Module Inventory.

Record t : Type := Build
  { product_id : string;
    current_stock : Qc;
    holding_cost_per_unit : Qc;
    unit_cost : Qc;
    min_stock_level : Qc;
    max_stock_level : option Qc }.

Definition new (product_id : string)
    (current_stock holding_cost_per_unit unit_cost min_stock_level : Qc)
    (max_stock_level : option Qc) : result t :=
  if decide (current_stock < 0) then
    Raise (ValueError (Msg "Current stock cannot be negative"))
  else if decide (holding_cost_per_unit < 0) then
    Raise (ValueError (Msg "Holding cost cannot be negative"))
  else if decide (unit_cost < 0) then
    Raise (ValueError (Msg "Unit cost cannot be negative"))
  else if decide (min_stock_level < 0) then
    Raise (ValueError (Msg "Minimum stock level cannot be negative"))
  else if match max_stock_level with
          | Some m => bool_decide (m < min_stock_level)
          | None => false
          end then
    Raise (ValueError (Msg "Maximum stock level cannot be less than minimum"))
  else Ok (Build product_id current_stock holding_cost_per_unit unit_cost
             min_stock_level max_stock_level).

(** [self.current_stock = v] *)
Definition set_current_stock (self : t) (v : Qc) : t :=
  Build (product_id self) v (holding_cost_per_unit self) (unit_cost self)
    (min_stock_level self) (max_stock_level self).

(** A method that mutates [self] returns its outcome and the object as the
    call leaves it; a [raise] leaves the object as it was at that point. *)
Definition add_stock (self : t) (quantity : Qc) : result unit * t :=
  if decide (quantity ≤ 0) then
    (Raise (ValueError (Msg "Quantity to add must be positive")), self)
  else
    (Ok (), set_current_stock self (current_stock self + quantity)).

Definition remove_stock (self : t) (quantity : Qc) : result unit * t :=
  if decide (quantity ≤ 0) then
    (Raise (ValueError (Msg "Quantity to remove must be positive")), self)
  else if decide (current_stock self < quantity) then
    (Raise (ValueError (CannotRemove quantity (current_stock self))), self)
  else
    (Ok (), set_current_stock self (current_stock self - quantity)).

Definition is_below_minimum (self : t) : bool :=
  bool_decide (current_stock self < min_stock_level self).

Definition is_above_maximum (self : t) : bool :=
  match max_stock_level self with
  | None => false
  | Some m => bool_decide (m < current_stock self)
  end.

Definition calculate_holding_cost (self : t) : Qc :=
  current_stock self * holding_cost_per_unit self.

(** A history of stock movements on one object.  A call that raises is
    seen by the caller and the object lives on unchanged. *)
Inductive call : Type :=
| AddStock (quantity : Qc)
| RemoveStock (quantity : Qc).

Definition perform (self : t) (c : call) : result unit * t :=
  match c with
  | AddStock q => add_stock self q
  | RemoveStock q => remove_stock self q
  end.

Definition run (self : t) (cs : list call) : t :=
  foldl (λ s c, (perform s c).2) self cs.

End Inventory.

(** * The arithmetic in binary64

    The functions whose result depends on how Python rounds are embedded a
    second time, on the binary64 floats of the implementation
    ([PrimFloat]): every [+], [-], [*], [/] and [math.sqrt] below is the
    IEEE 754 operation, rounded to nearest even, as CPython performs it on
    [float] values.  The arguments are floats, as the signatures annotate
    them; an [int] argument is read as the float of the same value, and
    Python's exact arithmetic on [int] arguments is not embedded.
    Comparisons with a NaN are false, so a NaN passes every guard. *)

#[local] Set Warnings "-inexact-float".

Module Binary64.

(** [a / b] on floats raises on a zero divisor, of either sign, and on
    nothing else. *)
Definition truediv (a b : float) : result float :=
  if (b =? 0)%float then Raise ZeroDivisionError else Ok (a / b)%float.

(** [math.sqrt]: a [ValueError] for a negative argument, [-inf] included;
    the square root of [-0.0] is [-0.0] and that of a NaN is a NaN. *)
Definition math_sqrt (x : float) : result float :=
  if (x <? 0)%float then Raise (ValueError (Msg "math domain error"))
  else Ok (PrimFloat.sqrt x).

(** [min(iterable, key=...)]: a later element replaces the current one only
    when its key compares strictly smaller. *)
Fixpoint min_from {A} (key : A → float) (best : A) (l : list A) : A :=
  match l with
  | [] => best
  | x :: l' => min_from key (if (key x <? key best)%float then x else best) l'
  end.

Definition py_min {A} (key : A → float) (l : list A) : result A :=
  match l with
  | [] => Raise (ValueError (Msg "min() arg is an empty sequence"))
  | x :: l' => Ok (min_from key x l')
  end.

(** A dict with numeric keys, in insertion order; a key is found by [==]. *)
Fixpoint dict_get {V} (d : list (float * V)) (k : float) : option V :=
  match d with
  | [] => None
  | (k', v) :: d' => if (k' =? k)%float then Some v else dict_get d' k
  end.

Definition dict_getitem {V} (d : list (float * V)) (k : float) : result V :=
  match dict_get d k with
  | Some v => Ok v
  | None => Raise KeyError
  end.

Definition dict_keys {V} (d : list (float * V)) : list float := d.*1.

(** [list.sort(key=lambda x: x[1], reverse=True)].  For values none of
    which is a NaN the comparison is a total preorder and every stable
    sort gives this list; with a NaN among the values the result of
    CPython's sort depends on its merge strategy, which is not embedded. *)
Fixpoint insert_desc (x : string * float) (l : list (string * float))
    : list (string * float) :=
  match l with
  | [] => [x]
  | y :: l' =>
      if (x.2 <? y.2)%float then y :: insert_desc x l' else x :: y :: l'
  end.

Fixpoint sort_desc (l : list (string * float)) : list (string * float) :=
  match l with
  | [] => []
  | x :: l' => insert_desc x (sort_desc l')
  end.

(** The builtin [sum] rounds differently in different versions of
    CPython. *)
Inductive summation : Type :=
| Plain
| Compensated.

(** [sum] up to CPython 3.11: from 0, left to right, rounding after every
    addition. *)
Definition py_sum (l : list float) : float := foldl PrimFloat.add 0%float l.

(** [sum] from CPython 3.12 on: the first float is added to the integer
    0, every later one by Neumaier's step, which keeps the rounding errors
    in a second float; that float is added at the end unless it is zero,
    infinite or a NaN. *)
Definition compensate (st : float * float) (x : float) : float * float :=
  let '(hi, lo) := st in
  let t := (hi + x)%float in
  let lo :=
    if (PrimFloat.abs x <=? PrimFloat.abs hi)%float then (lo + ((hi - t) + x))%float
    else (lo + ((x - t) + hi))%float in
  (t, lo).

Definition py_sum_compensated (l : list float) : float :=
  match l with
  | [] => 0%float
  | x :: l' =>
      let '(hi, lo) := foldl compensate ((0 + x)%float, 0%float) l' in
      if negb (lo =? 0)%float && PrimFloat.is_finite lo then (hi + lo)%float
      else hi
  end.

Definition builtin_sum (version : summation) (l : list float) : float :=
  match version with
  | Plain => py_sum l
  | Compensated => py_sum_compensated l
  end.

Module EOQAlgorithm.

Definition calculate (annual_demand ordering_cost holding_cost : float)
    : result float :=
  if (annual_demand <=? 0)%float then
    Raise (ValueError (Msg "Annual demand must be positive"))
  else if (ordering_cost <? 0)%float then
    Raise (ValueError (Msg "Ordering cost cannot be negative"))
  else if (holding_cost <=? 0)%float then
    Raise (ValueError (Msg "Holding cost must be positive"))
  else
    x ← truediv (2 * annual_demand * ordering_cost)%float holding_cost;
    eoq ← math_sqrt x;
    Ok eoq.

Definition calculate_total_cost
    (annual_demand ordering_cost holding_cost order_quantity : float)
    : result (float * float * float) :=
  if (order_quantity <=? 0)%float then
    Raise (ValueError (Msg "Order quantity must be positive"))
  else
    number_of_orders ← truediv annual_demand order_quantity;
    let total_ordering_cost := (number_of_orders * ordering_cost)%float in
    half ← truediv order_quantity 2%float;
    let total_holding_cost := (half * holding_cost)%float in
    let total_cost := (total_ordering_cost + total_holding_cost)%float in
    Ok (total_cost, total_ordering_cost, total_holding_cost).

End EOQAlgorithm.

Module ReorderPointAlgorithm.

Definition calculate (daily_demand lead_time_days safety_stock : float)
    : result float :=
  if (daily_demand <? 0)%float then
    Raise (ValueError (Msg "Daily demand cannot be negative"))
  else if (lead_time_days <? 0)%float then
    Raise (ValueError (Msg "Lead time cannot be negative"))
  else if (safety_stock <? 0)%float then
    Raise (ValueError (Msg "Safety stock cannot be negative"))
  else
    let rop := ((daily_demand * lead_time_days) + safety_stock)%float in
    Ok rop.

Definition calculate_from_annual
    (annual_demand lead_time_days safety_stock working_days : float)
    : result float :=
  if (working_days <=? 0)%float then
    Raise (ValueError (Msg "Working days must be positive"))
  else
    daily_demand ← truediv annual_demand working_days;
    calculate daily_demand lead_time_days safety_stock.

End ReorderPointAlgorithm.

Module SafetyStockAlgorithm.

Definition calculate (service_level_z demand_std_dev lead_time_days : float)
    : result float :=
  if (service_level_z <? 0)%float then
    Raise (ValueError (Msg "Service level Z-score cannot be negative"))
  else if (demand_std_dev <? 0)%float then
    Raise (ValueError (Msg "Standard deviation cannot be negative"))
  else if (lead_time_days <? 0)%float then
    Raise (ValueError (Msg "Lead time cannot be negative"))
  else
    root ← math_sqrt lead_time_days;
    let safety_stock := (service_level_z * demand_std_dev * root)%float in
    Ok safety_stock.

Definition service_levels : list (float * float) :=
  [ (50, 0.00); (75, 0.67); (80, 0.84); (85, 1.04); (90, 1.28); (95, 1.65);
    (97, 1.88); (98, 2.05); (99, 2.33); (99.5, 2.58); (99.9, 3.09) ]%float.

Definition get_z_score_for_service_level (service_level_percent : float)
    : result float :=
  match dict_get service_levels service_level_percent with
  | Some z => Ok z
  | None =>
      closest ← py_min (λ x, PrimFloat.abs (x - service_level_percent)%float)
                       (dict_keys service_levels);
      dict_getitem service_levels closest
  end.

End SafetyStockAlgorithm.

Module ABCAnalysisAlgorithm.

Definition item_values (items : list (string * float * float))
    : list (string * float) :=
  (λ '(product_id, unit_cost, annual_demand),
     let total_value := (unit_cost * annual_demand)%float in
     (product_id, total_value)) <$> items.

Definition classify (total_value : float) (st : gmap string string * float)
    (item : string * float) : result (gmap string string * float) :=
  let '(classification, cumulative_value) := st in
  let '(product_id, value) := item in
  q ← truediv cumulative_value total_value;
  let current_cumulative_percent := (q * 100)%float in
  let classification :=
    if (current_cumulative_percent <? 80)%float then
      <[product_id := "A"]> classification
    else if (current_cumulative_percent <? 95)%float then
      <[product_id := "B"]> classification
    else
      <[product_id := "C"]> classification in
  Ok (classification, (cumulative_value + value)%float).

(** The version of [sum] is an argument. *)
Definition calculate (version : summation) (items : list (string * float * float))
    : result (gmap string string) :=
  match items with
  | [] => Ok ∅
  | _ :: _ =>
      let item_values := sort_desc (item_values items) in
      let total_value := builtin_sum version item_values.*2 in
      st ← for_each (classify total_value) (∅, 0%float) item_values;
      Ok st.1
  end.

End ABCAnalysisAlgorithm.

End Binary64.

(** * Vocabulary of the specification *)

(** What [Inventory.new] checks about the thresholds: the maximum, when
    there is one, is not below the minimum. *)
Definition thresholds_ordered (self : Inventory.t) : Prop :=
  ∀ m, Inventory.max_stock_level self = Some m → Inventory.min_stock_level self ≤ m.

(** An inventory of product P001 with the given stock and thresholds. *)
Definition stocked (s mn : Qc) (mx : option Qc) : Inventory.t :=
  Inventory.Build "P001" s 2 10 mn mx.

(** The table key [k] with value [z] is the first key nearest to [p]: the
    keys before it are strictly farther from [p], the keys after it at
    least as far. *)
Definition first_nearest {V} (d : list (Qc * V)) (p k : Qc) (z : V) : Prop :=
  ∃ l1 l2, d = l1 ++ (k, z) :: l2
    ∧ Forall (λ kv, py_abs (k - p) < py_abs (kv.1 - p)) l1
    ∧ Forall (λ kv, py_abs (k - p) ≤ py_abs (kv.1 - p)) l2.

(** The sum of the values of the items. *)
Definition total_value (items : list (string * Qc * Qc)) : Qc :=
  py_sum (ABCAnalysisAlgorithm.item_values items).*2.

(** One item of value zero. *)
Definition abc_worthless : list (string * Qc * Qc) := [("P001", 0, 0)].

(** The operations to which the specification gives a range of arguments,
    each with its arguments. *)
Inductive operation : Type :=
| Demand_new (product_id : string) (quantity : Qc) (timestamp : datetime)
| Order_new (product_id : string) (quantity order_cost lead_time_days : Qc)
    (timestamp : datetime)
| Inventory_new (product_id : string)
    (current_stock holding_cost_per_unit unit_cost min_stock_level : Qc)
    (max_stock_level : option Qc)
| Inventory_add_stock (self : Inventory.t) (quantity : Qc)
| Inventory_remove_stock (self : Inventory.t) (quantity : Qc)
| EOQ_calculate (annual_demand ordering_cost holding_cost : Qc)
| EOQ_calculate_total_cost
    (annual_demand ordering_cost holding_cost order_quantity : Qc)
| EOQ_calculate_reorder_frequency (annual_demand eoq : Qc)
| ROP_calculate (daily_demand lead_time_days safety_stock : Qc)
| ROP_calculate_from_annual
    (annual_demand lead_time_days safety_stock working_days : Qc)
| SafetyStock_calculate (service_level_z demand_std_dev lead_time_days : Qc).

(** The range the specification gives (its sections 3 and 4). *)
Definition in_range (op : operation) : Prop :=
  match op with
  | Demand_new _ q _ => 0 ≤ q
  | Order_new _ q c l _ => 0 < q ∧ 0 ≤ c ∧ 0 ≤ l
  | Inventory_new _ s h u mn mx =>
      0 ≤ s ∧ 0 ≤ h ∧ 0 ≤ u ∧ 0 ≤ mn ∧ ∀ m, mx = Some m → mn ≤ m
  | Inventory_add_stock _ q => 0 < q
  | Inventory_remove_stock self q => 0 < q ∧ q ≤ Inventory.current_stock self
  | EOQ_calculate d s h => 0 < d ∧ 0 ≤ s ∧ 0 < h
  | EOQ_calculate_total_cost _ _ _ q => 0 < q
  | EOQ_calculate_reorder_frequency _ eoq => 0 < eoq
  | ROP_calculate d l ss => 0 ≤ d ∧ 0 ≤ l ∧ 0 ≤ ss
  | ROP_calculate_from_annual _ _ _ w => 0 < w
  | SafetyStock_calculate z sigma l => 0 ≤ z ∧ 0 ≤ sigma ∧ 0 ≤ l
  end.

(** The call returns instead of raising. *)
Definition completes (op : operation) : Prop :=
  match op with
  | Demand_new p q t => returns (Demand.new p q t)
  | Order_new p q c l t => returns (Order.new p q c l t)
  | Inventory_new p s h u mn mx => returns (Inventory.new p s h u mn mx)
  | Inventory_add_stock self q => returns (Inventory.add_stock self q).1
  | Inventory_remove_stock self q => returns (Inventory.remove_stock self q).1
  | EOQ_calculate d s h => returns (EOQAlgorithm.calculate d s h)
  | EOQ_calculate_total_cost d s h q =>
      returns (EOQAlgorithm.calculate_total_cost d s h q)
  | EOQ_calculate_reorder_frequency d eoq =>
      returns (EOQAlgorithm.calculate_reorder_frequency d eoq)
  | ROP_calculate d l ss => returns (ReorderPointAlgorithm.calculate d l ss)
  | ROP_calculate_from_annual d l ss w =>
      returns (ReorderPointAlgorithm.calculate_from_annual d l ss w)
  | SafetyStock_calculate z sigma l =>
      returns (SafetyStockAlgorithm.calculate z sigma l)
  end.

Definition is_reorder_frequency (op : operation) : Prop :=
  ∃ D eoq, op = EOQ_calculate_reorder_frequency D eoq.

(** What [Inventory.__post_init__] establishes. *)
Definition well_formed (self : Inventory.t) : Prop :=
  0 ≤ Inventory.current_stock self ∧ 0 ≤ Inventory.holding_cost_per_unit self
  ∧ 0 ≤ Inventory.unit_cost self ∧ 0 ≤ Inventory.min_stock_level self
  ∧ thresholds_ordered self.

(** ** Vocabulary of the binary64 statements *)

(** The class of a binary64 percentage. *)
Definition tier64 (percent : float) : string :=
  if (percent <? 80)%float then "A"
  else if (percent <? 95)%float then "B"
  else "C".

(** Descending by value, on floats. *)
Definition desc64 (a b : string * float) : Prop := (b.2 <=? a.2)%float = true.

(** Item [i] of [l] is the last one with product id [pid]. *)
Definition last_with64 (l : list (string * float)) (i : nat) (pid : string)
    (v : float) : Prop :=
  l !! i = Some (pid, v) ∧ pid ∉ (drop (S i) l).*1.

(** The total the code divides by: the [sum] of the values in sorted
    order. *)
Definition total_value64 (version : Binary64.summation)
    (items : list (string * float * float)) : float :=
  Binary64.builtin_sum version
    (Binary64.sort_desc (Binary64.ABCAnalysisAlgorithm.item_values items)).*2.

(** The value of [cumulative_value] when the loop reaches item [i] of the
    sorted list [l]: the values before it, added one by one to 0. *)
Definition cumulative64 (l : list (string * float)) (i : nat) : float :=
  foldl PrimFloat.add 0%float (take i l).*2.

(** No value of the items is a NaN. *)
Definition no_nan_value (items : list (string * float * float)) : Prop :=
  Forall (λ it, PrimFloat.is_nan it.2 = false)
    (Binary64.ABCAnalysisAlgorithm.item_values items).

(** The table key [k] with value [z] is the first key whose distance from
    [p], as the code computes it, is least. *)
Definition first_nearest64 (d : list (float * float)) (p k z : float) : Prop :=
  ∃ l1 l2, d = l1 ++ (k, z) :: l2
    ∧ Forall (λ kv, (PrimFloat.abs (k - p) <? PrimFloat.abs (kv.1 - p))%float = true) l1
    ∧ Forall (λ kv, (PrimFloat.abs (k - p) <=? PrimFloat.abs (kv.1 - p))%float = true) l2.

(** Below zero: a negative finite number or [-inf]; neither [-0.0] nor a NaN. *)
Definition strictly_negative (f : spec_float) : bool :=
  match f with
  | S754_finite s _ _ | S754_infinity s => s
  | _ => false
  end.

(** Above zero or a NaN: what passes a guard [x <= 0]. *)
Definition positive_or_nan (f : spec_float) : bool :=
  match f with
  | S754_finite s _ _ | S754_infinity s => negb s
  | S754_zero _ => false
  | S754_nan => true
  end.

(** Where a float stands in the order: class, then exponent, then
    mantissa, mirrored for the negative ones.  Both zeros share a rank. *)
Definition rank (f : spec_float) : Z * Z * Z :=
  match f with
  | S754_infinity true => (-2, 0, 0)%Z
  | S754_finite true m e => (-1, - e, Zneg m)%Z
  | S754_zero _ | S754_nan => (0, 0, 0)%Z
  | S754_finite false m e => (1, e, Zpos m)%Z
  | S754_infinity false => (2, 0, 0)%Z
  end.

(** Ranks are compared lexicographically. *)
Definition lex_lt (a b : Z * Z * Z) : Prop :=
  (a.1.1 < b.1.1 ∨ (a.1.1 = b.1.1 ∧
     (a.1.2 < b.1.2 ∨ (a.1.2 = b.1.2 ∧ a.2 < b.2))))%Z.

Definition lex_eq (a b : Z * Z * Z) : Prop :=
  (a.1.1 = b.1.1 ∧ a.1.2 = b.1.2 ∧ a.2 = b.2)%Z.

(** The rank of a float. *)
Definition frank (x : float) : Z * Z * Z := rank (Prim2SF x).

(** Not a NaN. *)
Definition number (x : float) : Prop := Prim2SF x ≠ S754_nan.

(** Finite, as a float is when it is neither a NaN nor an infinity. *)
Definition finite (f : spec_float) : bool :=
  match f with
  | S754_zero _ | S754_finite _ _ _ => true
  | _ => false
  end.

(** What [shr_fexp] keeps: a non-negative mantissa, the magnitude bound
    and the exponent bound. *)
Definition in_range64 (bound m e : Z) : Prop :=
  (0 ≤ m ∧ Zdigits2 m + e ≤ bound ∧ e ≤ emax - prec)%Z.

(** The exact value of a finite float, as a rational. *)
Definition exact_value (x : float) : option Qc :=
  match Prim2SF x with
  | S754_zero _ => Some 0
  | S754_finite s m e =>
      let mag : Qc :=
        match e with
        | Z0 => Qc_of_Z (Zpos m)
        | Zpos n => Qc_of_Z (Zpos m * 2 ^ Zpos n)
        | Zneg n => ratio (Zpos m) (2 ^ n)
        end in
      Some (if s then - mag else mag)
  | S754_infinity _ | S754_nan => None
  end.

(** The largest finite float. *)
Definition max_float : float := 0x1.fffffffffffffp1023%float.

(** The items of the tests. *)
Definition abc_example64 : list (string * float * float) :=
  [("P001", 100, 1000); ("P002", 10, 500); ("P003", 5, 200)]%float.

(** Two items with one product id. *)
Definition abc_same_id64 : list (string * float * float) :=
  [("P001", 10, 1); ("P001", 1, 1)]%float.

(** Values that cancel in binary64, though not exactly. *)
Definition abc_cancelling : list (string * float * float) :=
  [("P1", 4.5, 7); ("P2", -1.05, 30)]%float.

(** Values that overflow to [inf] and [-inf]: their sum is a NaN. *)
Definition abc_overflowing : list (string * float * float) :=
  [("P1", 1e308, 10); ("P2", -1e308, 10)]%float.

(** A cumulative share that rounds up to the threshold of 80. *)
Definition abc_rounding : list (string * float * float) :=
  [("P0", 11.07, 8); ("P1", 8.43, 48); ("P2", 0.36, 35)]%float.

(** A large value that absorbs a small one before its opposite cancels
    it. *)
Definition abc_absorbing : list (string * float * float) :=
  [("P1", 1e16, 1); ("P2", 1, 1); ("P3", -1e16, 1)]%float.

(** No two of the pairs have equal values. *)
Definition distinct_values64 (l : list (string * float)) : Prop :=
  ∀ (i j : nat) x y, l !! i = Some x → l !! j = Some y →
    (x.2 =? y.2)%float = true → i = j.

(** * Properties *)

(** ** Results and arithmetic *)

Lemma truediv_Ok (a b : Qc) : b ≠ 0 → truediv a b = Ok (a / b).
Proof. intros Hb. unfold truediv. by rewrite decide_False. Qed.

Lemma truediv_zero (a : Qc) : truediv a 0 = Raise ZeroDivisionError.
Proof. unfold truediv. by rewrite decide_True. Qed.

Lemma Qclt_neq_0 (x : Qc) : 0 < x → x ≠ 0.
Proof. intros Hx ->. by apply (Qclt_not_eq 0 0). Qed.

Lemma Qcdiv_nonneg (x y : Qc) : 0 ≤ x → 0 < y → 0 ≤ x / y.
Proof.
  intros Hx Hy. unfold Qcdiv.
  apply Qcmult_nonneg_nonneg; [done|]. by apply Qclt_le_weak, Qcinv_pos.
Qed.

Lemma Qc_two_pos : (0 : Qc) < 2.
Proof. reflexivity. Qed.

Lemma not_returns_Raise {A} (e : exn) : ¬ returns (@Raise A e).
Proof. by intros [a Ha]. Qed.

Create HintDb qc.
#[local] Hint Resolve Qclt_le_weak Qcle_not_lt Qclt_not_le Qclt_neq_0 : qc.
#[local] Hint Resolve Qcmult_nonneg_nonneg Qcdiv_nonneg Qc_two_pos : qc.

(** Case analysis on the guards of a validated function. *)
Ltac guards :=
  repeat match goal with
  | |- context [decide ?P] => destruct (decide P)
  end.

(** ** Reorder point *)



(** ** Inventory *)

Section inventory.
Import Inventory.
Implicit Types (self : Inventory.t) (q : Qc) (cs : list call).

Lemma new_thresholds_ordered pid s h u mn mx self :
  new pid s h u mn mx = Ok self → thresholds_ordered self.
Proof.
  unfold new. guards; try done.
  destruct mx as [m|]; [case_bool_decide; [done|]|];
    intros [= <-] m' [= <-]; cbn. by apply Qcnot_lt_le.
Qed.

Lemma perform_nonneg self c :
  0 ≤ current_stock self → 0 ≤ current_stock (perform self c).2.
Proof.
  intros Hs. destruct c as [q|q]; unfold perform, add_stock, remove_stock;
    guards; cbn [snd current_stock set_current_stock]; try done.
  - apply Qcplus_nonneg_nonneg; [done|]. by apply Qclt_le_weak, Qcnot_le_lt.
  - apply (proj1 (Qcle_minus_iff q (current_stock self))).
    by apply Qcnot_lt_le.
Qed.

Lemma run_nonneg self cs :
  0 ≤ current_stock self → 0 ≤ current_stock (run self cs).
Proof.
  revert self. induction cs as [|c cs IH]; intros self Hs; [done|].
  apply (IH (perform self c).2), perform_nonneg, Hs.
Qed.


(** C9.  [is_below_minimum] holds exactly when the stock is strictly
    below the minimum, [is_above_maximum] exactly when there is a maximum
    and the stock is strictly above it; at the boundary each predicate is
    false, without a maximum [is_above_maximum] is false, and with
    ordered thresholds both are false at either boundary. *)
Theorem threshold_predicates_spec self :
  (is_below_minimum self = true ↔ current_stock self < min_stock_level self) ∧
  (is_above_maximum self = true ↔
     ∃ m, max_stock_level self = Some m ∧ m < current_stock self) ∧
  (current_stock self = min_stock_level self → is_below_minimum self = false) ∧
  (max_stock_level self = Some (current_stock self) →
     is_above_maximum self = false) ∧
  (max_stock_level self = None → is_above_maximum self = false) ∧
  (thresholds_ordered self →
     current_stock self = min_stock_level self
     ∨ max_stock_level self = Some (current_stock self) →
     is_below_minimum self = false ∧ is_above_maximum self = false).
Proof.
  assert (Hirr : ∀ x : Qc, ¬ x < x) by (intros x; apply Qcle_not_lt, Qcle_refl).
  unfold is_below_minimum, is_above_maximum, thresholds_ordered. split_and!.
  - apply bool_decide_eq_true.
  - destruct (max_stock_level self) as [m|].
    + rewrite bool_decide_eq_true. split; [by eauto|].
      by intros (m' & [= <-] & Hm).
    + split; [done|]. by intros (m' & [=] & _).
  - intros ->. by apply bool_decide_eq_false.
  - intros ->. by apply bool_decide_eq_false.
  - by intros ->.
  - intros Hord [Heq|Heq].
    + rewrite Heq. split; [by apply bool_decide_eq_false|].
      destruct (max_stock_level self) as [m|] eqn:Hm; [|done].
      apply bool_decide_eq_false, Qcle_not_lt. by apply Hord.
    + rewrite Heq. split; apply bool_decide_eq_false; [|done].
      apply Qcle_not_lt. by apply Hord.
Qed.

End inventory.


Lemma threshold_predicates_spec_witness :
  thresholds_ordered (stocked 50 50 (Some (100 : Qc))) ∧
  Inventory.is_below_minimum (stocked 50 50 (Some (100 : Qc))) = false ∧
  Inventory.is_above_maximum (stocked 50 50 (Some (100 : Qc))) = false.
Proof.
  assert (Hord : thresholds_ordered (stocked 50 50 (Some (100 : Qc)))).
  { by intros m [= <-]. }
  split; [exact Hord|].
  apply (threshold_predicates_spec (stocked 50 50 (Some (100 : Qc)))); [exact Hord|].
  left. by apply Qc_is_canon.
Defined.

(** ** Service levels *)

Section min_from.
Context {A : Type} (key : A → Qc).

Lemma min_from_snoc (best x : A) (l : list A) :
  min_from key best (l ++ [x])
  = if decide (key x < key (min_from key best l)) then x
    else min_from key best l.
Proof. revert best. induction l as [|y l IH]; intros best; [done|]. apply IH. Qed.

(** [min] returns the first element of least key: every element before it
    has a strictly larger key, every element after it a key at least as
    large. *)
Lemma min_from_first_least (best : A) (l : list A) :
  ∃ l1 l2, best :: l = l1 ++ min_from key best l :: l2
    ∧ Forall (λ x, key (min_from key best l) < key x) l1
    ∧ Forall (λ x, key (min_from key best l) ≤ key x) l2.
Proof.
  induction l as [|x l IH] using rev_ind.
  { exists [], []. by repeat split. }
  destruct IH as (l1 & l2 & Heq & Hl1 & Hl2).
  rewrite min_from_snoc. set (m := min_from key best l) in *.
  destruct (decide (key x < key m)) as [Hlt|Hge].
  - exists (best :: l), []. split_and!; [done| |done].
    rewrite Heq. apply Forall_app. split.
    + eapply List.Forall_impl; [|exact Hl1]. intros y Hy. cbn in *.
      by eapply Qclt_trans.
    + constructor; [exact Hlt|].
      eapply List.Forall_impl; [|exact Hl2]. intros y Hy. cbn in *.
      by eapply Qclt_le_trans.
  - exists l1, (l2 ++ [x]). split_and!; [|done|].
    + by rewrite app_comm_cons, Heq, <- app_assoc.
    + apply Forall_app. split; [done|]. apply Forall_singleton.
      by apply Qcnot_lt_le.
Qed.

End min_from.

Lemma dict_get_middle {V} (l1 l2 : list (Qc * V)) (k : Qc) (v : V) :
  k ∉ dict_keys l1 → dict_get (l1 ++ (k, v) :: l2) k = Some v.
Proof.
  unfold dict_keys. induction l1 as [|[k' v'] l1 IH]; cbn; intros Hk.
  - by rewrite decide_True.
  - apply not_elem_of_cons in Hk as [Hne Hk]. rewrite decide_False by done. auto.
Qed.

Lemma dict_get_Some {V} (d : list (Qc * V)) (k : Qc) (v : V) :
  dict_get d k = Some v →
  ∃ l1 l2, d = l1 ++ (k, v) :: l2 ∧ k ∉ dict_keys l1.
Proof.
  unfold dict_keys. induction d as [|[k' v'] d IH]; cbn; [done|].
  destruct (decide (k' = k)) as [->|Hne].
  - intros [= ->]. exists [], d. split; [done|]. apply not_elem_of_nil.
  - intros (l1 & l2 & -> & Hk)%IH. exists ((k', v') :: l1), l2.
    split; [done|]. cbn. apply not_elem_of_cons. by split.
Qed.

Lemma py_abs_nonneg (x : Qc) : 0 ≤ py_abs x.
Proof.
  unfold py_abs. destruct (decide (x < 0)) as [Hx|Hx].
  - apply Qclt_le_weak in Hx. apply Qcopp_le_compat in Hx. exact Hx.
  - by apply Qcnot_lt_le.
Qed.

Lemma py_abs_pos (x : Qc) : x ≠ 0 → 0 < py_abs x.
Proof.
  intros Hx. destruct (Qcle_lt_or_eq _ _ (py_abs_nonneg x)) as [|Heq]; [done|].
  exfalso. apply Hx. unfold py_abs in Heq. destruct (decide (x < 0)); [|done].
  rewrite <- (Qcopp_involutive x), <- Heq. reflexivity.
Qed.

Lemma py_abs_self (x : Qc) : py_abs (x - x) = 0.
Proof.
  unfold Qcminus. rewrite Qcplus_opp_r. reflexivity.
Qed.

Lemma Qcminus_neq (x y : Qc) : x ≠ y → x - y ≠ 0.
Proof.
  intros Hne Heq. apply Hne.
  rewrite <- (Qcplus_0_l y), <- Heq. ring.
Qed.

Lemma Forall_keys {V} (P : Qc → Prop) (l : list (Qc * V)) :
  Forall P (dict_keys l) → Forall (λ kv, P kv.1) l.
Proof.
  unfold dict_keys. induction l as [|kv l IH]; cbn; [done|].
  inversion 1; subst. constructor; auto.
Qed.

Lemma exact_lookup_nearest {V} (d : list (Qc * V)) (p : Qc) (z : V) :
  dict_get d p = Some z → first_nearest d p p z.
Proof.
  intros (l1 & l2 & -> & Hp)%dict_get_Some. exists l1, l2.
  rewrite py_abs_self. split_and!; [done| |].
  - apply Forall_forall. intros [k v] Hkv. apply py_abs_pos, Qcminus_neq.
    cbn. intros ->. apply Hp. unfold dict_keys. apply list_elem_of_fmap.
    exists (p, v). split; [done|]. by apply list_elem_of_In.
  - apply Forall_forall. intros kv _. apply py_abs_nonneg.
Qed.

Lemma closest_lookup_nearest {V} (d : list (Qc * V)) (p : Qc) :
  d ≠ [] →
  ∃ k z,
    (closest ← py_min (λ x, py_abs (x - p)) (dict_keys d); dict_getitem d closest)
    = Ok z ∧ first_nearest d p k z.
Proof.
  intros Hd. destruct d as [|[k0 z0] d]; [done|]. clear Hd.
  unfold dict_keys. cbn [fmap list_fmap fst py_min mbind result_bind].
  set (key := λ x : Qc, py_abs (x - p)).
  destruct (min_from_first_least key k0 d.*1) as (ks1 & ks2 & Heq & Hks1 & Hks2).
  set (r := min_from key k0 d.*1) in *.
  change (k0 :: d.*1) with (((k0, z0) :: d).*1) in Heq.
  apply fmap_app_inv in Heq as (l1 & l' & -> & Hl' & Hd).
  symmetry in Hl'. apply fmap_cons_inv in Hl' as ([k z] & l2 & Hr & -> & ->).
  cbn in Hr. subst k. exists r, z. split.
  - unfold dict_getitem. rewrite Hd, dict_get_middle; [done|].
    unfold dict_keys. intros Hin.
    apply list_elem_of_In in Hin.
    apply (proj1 (Forall_forall _ _) Hks1) in Hin.
    by apply Qcle_not_lt in Hin; [|apply Qcle_refl].
  - exists l1, l2. split; [done|]. split.
    + by apply Forall_keys in Hks1.
    + by apply Forall_keys in Hks2.
Qed.

(** ** ABC analysis *)

Lemma py_sum_from (a : Qc) (l : list Qc) : foldl Qcplus a l = a + py_sum l.
Proof.
  unfold py_sum. revert a. induction l as [|x l IH]; intros a; cbn.
  - by rewrite Qcplus_0_r.
  - rewrite (IH (a + x)), (IH (0 + x)), Qcplus_0_l. ring.
Qed.

Lemma py_sum_cons (x : Qc) (l : list Qc) : py_sum (x :: l) = x + py_sum l.
Proof. unfold py_sum at 1. cbn. by rewrite py_sum_from, Qcplus_0_l. Qed.

Lemma py_sum_perm (l1 l2 : list Qc) : l1 ≡ₚ l2 → py_sum l1 = py_sum l2.
Proof.
  induction 1 as [|x l1 l2 _ IH|x y l|l1 l2 l3 _ IH1 _ IH2].
  - done.
  - by rewrite !py_sum_cons, IH.
  - rewrite !py_sum_cons. ring.
  - by rewrite IH1.
Qed.

Lemma py_sum_zeros (l : list Qc) : Forall (λ x, x = 0) l → py_sum l = 0.
Proof.
  induction 1 as [|x l -> _ IH]; [done|]. by rewrite py_sum_cons, IH.
Qed.

Lemma insert_desc_perm x l : insert_desc x l ≡ₚ x :: l.
Proof.
  induction l as [|y l IH]; cbn; [done|].
  destruct (decide (x.2 < y.2)); [|done].
  by rewrite IH, Permutation_swap.
Qed.

Lemma sort_desc_perm l : sort_desc l ≡ₚ l.
Proof.
  induction l as [|x l IH]; cbn; [done|]. by rewrite insert_desc_perm, IH.
Qed.

Lemma sort_desc_nil_inv l : sort_desc l = [] → l = [].
Proof.
  intros Hs. apply Permutation_nil_r. by rewrite <- Hs, sort_desc_perm.
Qed.

Section classification.
Import ABCAnalysisAlgorithm.
Implicit Types (items : list (string * Qc * Qc)) (l : list (string * Qc)).
Implicit Types (m : gmap string string) (c total v : Qc) (pid : string).

Lemma classify_zero m c pid v :
  classify 0 (m, c) (pid, v) = Raise ZeroDivisionError.
Proof. unfold classify. by rewrite truediv_zero. Qed.

Lemma total_value_sorted items :
  py_sum (sort_desc (item_values items)).*2 = total_value items.
Proof. apply py_sum_perm. by rewrite sort_desc_perm. Qed.

Lemma calculate_unfold items :
  items ≠ [] →
  calculate items
  = st ← for_each (classify (total_value items)) (∅, 0)
           (sort_desc (item_values items)); Ok st.1.
Proof.
  intros Hne. destruct items as [|it items]; [done|].
  unfold calculate. by rewrite total_value_sorted.
Qed.


Lemma size_list_to_set_remove_dups (ids : list string) :
  size (list_to_set ids : gset string) = length (remove_dups ids).
Proof.
  rewrite <- (size_list_to_set (C:=gset string) (remove_dups ids))
    by apply NoDup_remove_dups.
  f_equal. apply set_eq. intros x.
  by rewrite !elem_of_list_to_set, elem_of_remove_dups.
Qed.

End classification.


(** ** Validation *)

Lemma returns_Ok {A} (a : A) : returns (Ok a).
Proof. by exists a. Qed.

Lemma reorder_frequency_returns (D eoq : Qc) :
  returns (EOQAlgorithm.calculate_reorder_frequency D eoq).
Proof.
  unfold EOQAlgorithm.calculate_reorder_frequency.
  destruct (decide (0 < eoq)); [|apply returns_Ok].
  rewrite truediv_Ok by auto with qc. apply returns_Ok.
Qed.

Lemma is_reorder_frequency_dec (op : operation) :
  is_reorder_frequency op ∨ ¬ is_reorder_frequency op.
Proof.
  unfold is_reorder_frequency.
  destruct op; try (right; by intros (? & ? & ?)). left. eauto.
Qed.

(** Strict validation: every other operation returns only on arguments in
    range. *)
Lemma completes_in_range (op : operation) :
  ¬ is_reorder_frequency op → completes op → in_range op.
Proof.
  unfold is_reorder_frequency.
  destruct op; cbn; intros Hop;
    try solve [unfold Demand.new, Order.new, Inventory.add_stock,
           Inventory.remove_stock, EOQAlgorithm.calculate,
           EOQAlgorithm.calculate_total_cost, ReorderPointAlgorithm.calculate,
           ReorderPointAlgorithm.calculate_from_annual,
           SafetyStockAlgorithm.calculate;
         guards; cbn; try (by intros ?%not_returns_Raise); intros _;
         repeat split; auto using Qcnot_le_lt, Qcnot_lt_le].
  - unfold Inventory.new. guards; try (by intros ?%not_returns_Raise).
    destruct max_stock_level as [m|].
    + case_bool_decide; [by intros ?%not_returns_Raise|]. intros _.
      repeat split; auto using Qcnot_le_lt, Qcnot_lt_le.
      intros m' [= <-]. by apply Qcnot_lt_le.
    + intros _. repeat split; auto using Qcnot_le_lt, Qcnot_lt_le.
  - exfalso. eauto.
Qed.



(** * Further properties *)

(** ** Arithmetic on the rationals *)

Lemma Qc_eq_Qeq (x y : Qc) : x = y ↔ (this x == this y)%Q.
Proof. split; [by intros ->|apply Qc_is_canon]. Qed.

Lemma this_Q2Qc (q : Q) : (this (Q2Qc q) == q)%Q.
Proof. apply Qred_correct. Qed.

(** Goals and hypotheses on [Qc] are moved to [Q], where the decision
    procedures for linear and field arithmetic work. *)
Ltac qc_to_q :=
  repeat match goal with
  | H : ¬ (_ < _)%Qc |- _ => apply Qcnot_lt_le in H
  | H : ¬ (_ ≤ _)%Qc |- _ => apply Qcnot_le_lt in H
  | H : @eq Qc _ _ |- _ => apply Qc_eq_Qeq in H
  | H : ¬ (@eq Qc _ _) |- _ => rewrite Qc_eq_Qeq in H
  | |- @eq Qc _ _ => apply Qc_eq_Qeq
  | |- ¬ (@eq Qc _ _) => rewrite Qc_eq_Qeq
  end;
  unfold Qclt, Qcle, Qcdiv, Qcminus, Qcplus, Qcmult, Qcopp, Qcinv, Qc_of_Z in *;
  cbn [this] in *;
  repeat setoid_rewrite this_Q2Qc;
  repeat match goal with
  | H : _ |- _ => progress (setoid_rewrite this_Q2Qc in H)
  end.

Ltac qc_lra := qc_to_q; Lqa.lra.

Lemma Qc2R_0 : Qc2R 0 = 0%R.
Proof. unfold Qc2R, Q2R. simpl. lra. Qed.

Lemma Qc2R_pos (x : Qc) : 0 < x → (0 < Qc2R x)%R.
Proof. intros Hx. rewrite <- Qc2R_0. unfold Qc2R. by apply Qlt_Rlt. Qed.

(** ** Reorder point *)



(** ** Service levels and safety stock *)

Lemma get_z_score_nearest (p : Qc) :
  ∃ k z, SafetyStockAlgorithm.get_z_score_for_service_level p = Ok z
         ∧ first_nearest SafetyStockAlgorithm.service_levels p k z.
Proof.
  unfold SafetyStockAlgorithm.get_z_score_for_service_level.
  destruct (dict_get SafetyStockAlgorithm.service_levels p) as [z|] eqn:Hz.
  - exists p, z. split; [done|]. by apply exact_lookup_nearest.
  - by apply closest_lookup_nearest.
Qed.

Lemma first_nearest_elem_of {V} (d : list (Qc * V)) (p k : Qc) (z : V) :
  first_nearest d p k z → (k, z) ∈ d.
Proof.
  intros (l1 & l2 & -> & _). apply elem_of_app. right. apply elem_of_cons. by left.
Qed.


(** ** Value objects *)





(** ** Inventory: construction and stock movements *)

Section inventory_more.
Import Inventory.
Implicit Types (self : Inventory.t) (q : Qc) (cs : list call).

Lemma new_Ok_inv pid s h u mn mx self :
  new pid s h u mn mx = Ok self →
  self = Build pid s h u mn mx ∧ well_formed self.
Proof.
  intros Hnew. pose proof (new_thresholds_ordered _ _ _ _ _ _ _ Hnew) as Hord.
  revert Hnew. unfold new. guards; try done.
  destruct (match mx with Some m => bool_decide (m < mn) | None => false end);
    [done|].
  intros [= <-]. split; [done|]. unfold well_formed. cbn.
  split_and!; try (by apply Qcnot_lt_le). done.
Qed.

Lemma set_current_stock_twice self a b :
  set_current_stock (set_current_stock self a) b = set_current_stock self b.
Proof. done. Qed.

Lemma set_current_stock_same self :
  set_current_stock self (current_stock self) = self.
Proof. by destruct self. Qed.



End inventory_more.

Section inventory_history.
Import Inventory.
Implicit Types (self : Inventory.t) (q : Qc) (cs : list call).

Lemma perform_only_stock self c :
  (perform self c).2 = set_current_stock self (current_stock (perform self c).2).
Proof.
  destruct c; unfold perform, add_stock, remove_stock; guards; cbn;
    by rewrite ?set_current_stock_same.
Qed.

Lemma run_only_stock self cs :
  run self cs = set_current_stock self (current_stock (run self cs)).
Proof.
  revert self. induction cs as [|c cs IH]; intros self.
  { by rewrite set_current_stock_same. }
  unfold run in *. cbn [foldl]. rewrite (IH (perform self c).2) at 1.
  rewrite (perform_only_stock self c) at 1. apply set_current_stock_twice.
Qed.





End inventory_history.

(** * Properties in binary64 *)

(** ** Signs in binary64 *)

Lemma Prim2SF_zero : Prim2SF 0 = S754_zero false.
Proof. reflexivity. Qed.

Lemma ltb_zero (x : float) : (x <? 0)%float = strictly_negative (Prim2SF x).
Proof.
  rewrite FloatAxioms.ltb_spec, Prim2SF_zero. by destruct (Prim2SF x) as [[]|[]| |[] ? ?].
Qed.

Lemma leb_zero (x : float) : (x <=? 0)%float = negb (positive_or_nan (Prim2SF x)).
Proof.
  rewrite FloatAxioms.leb_spec, Prim2SF_zero. by destruct (Prim2SF x) as [[]|[]| |[] ? ?].
Qed.

Lemma eqb_zero (x : float) :
  (x =? 0)%float = match Prim2SF x with S754_zero _ => true | _ => false end.
Proof.
  rewrite FloatAxioms.eqb_spec, Prim2SF_zero. by destruct (Prim2SF x) as [[]|[]| |[] ? ?].
Qed.

(** Rounding keeps the sign it is given. *)
Lemma binary_round_aux_sign (sx : bool) (mx ex : Z) (lx : location) :
  ∃ f, binary_round_aux prec emax sx mx ex lx = f
       ∧ (f = S754_nan ∨ f = S754_zero sx ∨ f = S754_infinity sx
          ∨ ∃ m e, f = S754_finite sx m e).
Proof.
  unfold binary_round_aux.
  destruct (shr_fexp prec emax mx ex lx) as [mrs' e'].
  destruct (shr_fexp prec emax _ e' loc_Exact) as [mrs'' e''].
  destruct (shr_m mrs'') as [|m|m]; [eauto| |eauto].
  destruct (e'' <=? emax - prec)%Z; eauto 8.
Qed.

Lemma round_not_negative (mx ex : Z) (lx : location) :
  strictly_negative (binary_round_aux prec emax false mx ex lx) = false.
Proof.
  destruct (binary_round_aux_sign false mx ex lx)
    as (f & -> & [->|[->|[->|(m & e & ->)]]]); done.
Qed.

Lemma mul_not_negative (x y : float) :
  (x <? 0)%float = false → (y <? 0)%float = false → (x * y <? 0)%float = false.
Proof.
  rewrite !ltb_zero, FloatAxioms.mul_spec. unfold SF64mul.
  destruct (Prim2SF x) as [[]|[]| |[] mx ex], (Prim2SF y) as [[]|[]| |[] my ey];
    cbn; try done.
  intros _ _. apply round_not_negative.
Qed.

Lemma div_not_negative (x y : float) :
  (x <? 0)%float = false → (y <=? 0)%float = false → (x / y <? 0)%float = false.
Proof.
  rewrite !ltb_zero, leb_zero, FloatAxioms.div_spec. unfold SF64div.
  destruct (Prim2SF x) as [[]|[]| |[] mx ex], (Prim2SF y) as [[]|[]| |[] my ey];
    cbn; try done.
  intros _ _. destruct (SFdiv_core_binary _ _ _ _ _ _) as [[mz ez] lz].
  apply round_not_negative.
Qed.

Lemma leb_false_ltb (x : float) : (x <=? 0)%float = false → (x <? 0)%float = false.
Proof. rewrite ltb_zero, leb_zero. by destruct (Prim2SF x) as [[]|[]| |[] ? ?]. Qed.

Lemma leb_false_eqb (x : float) : (x <=? 0)%float = false → (x =? 0)%float = false.
Proof. rewrite eqb_zero, leb_zero. by destruct (Prim2SF x) as [[]|[]| |[] ? ?]. Qed.

Lemma truediv64_Ok (a b : float) :
  (b =? 0)%float = false → Binary64.truediv a b = Ok (a / b)%float.
Proof. intros Hb. unfold Binary64.truediv. by rewrite Hb. Qed.

Lemma math_sqrt64_Ok (x : float) :
  (x <? 0)%float = false → Binary64.math_sqrt x = Ok (PrimFloat.sqrt x).
Proof. intros Hx. unfold Binary64.math_sqrt. by rewrite Hx. Qed.

(** ** The order of binary64 *)

Lemma SFcompare_rank (x y : spec_float) :
  x ≠ S754_nan → y ≠ S754_nan →
  ∃ c, SFcompare x y = Some c ∧
    match c with
    | Lt => lex_lt (rank x) (rank y)
    | Eq => lex_eq (rank x) (rank y)
    | Gt => lex_lt (rank y) (rank x)
    end.
Proof.
  intros Hx Hy. unfold lex_lt, lex_eq.
  destruct x as [[]|[]| |[] mx ex], y as [[]|[]| |[] my ey]; try done;
    cbn; try (eexists; split; [reflexivity|cbn; lia]).
  - change (Pos.compare_cont Eq mx my) with (mx ?= my)%positive.
    destruct (Z.compare_spec ex ey), (Pos.compare_spec mx my);
      eexists; (split; [reflexivity|cbn; lia]).
  - change (Pos.compare_cont Eq mx my) with (mx ?= my)%positive.
    destruct (Z.compare_spec ex ey), (Pos.compare_spec mx my);
      eexists; (split; [reflexivity|cbn; lia]).
Qed.

Lemma SFcompare_nan (x y : spec_float) :
  x = S754_nan ∨ y = S754_nan → SFcompare x y = None.
Proof. intros [-> | ->]; [done|]. by destruct x as [[]|[]| |[] ? ?]. Qed.

Lemma number_dec (x : float) : number x ∨ Prim2SF x = S754_nan.
Proof. unfold number. destruct (Prim2SF x); auto. Qed.

Lemma ltb_true (x y : float) :
  (x <? y)%float = true ↔ number x ∧ number y ∧ lex_lt (frank x) (frank y).
Proof.
  rewrite FloatAxioms.ltb_spec. unfold SFltb, number, frank.
  destruct (number_dec x) as [Hx|Hx], (number_dec y) as [Hy|Hy].
  - destruct (SFcompare_rank _ _ Hx Hy) as (c & -> & Hc).
    unfold lex_lt, lex_eq in *. destruct c; intuition (try done; lia).
  - rewrite SFcompare_nan by auto. intuition done.
  - rewrite SFcompare_nan by auto. intuition done.
  - rewrite SFcompare_nan by auto. intuition done.
Qed.

Lemma leb_true (x y : float) :
  (x <=? y)%float = true
  ↔ number x ∧ number y ∧ (lex_lt (frank x) (frank y) ∨ lex_eq (frank x) (frank y)).
Proof.
  rewrite FloatAxioms.leb_spec. unfold SFleb, number, frank.
  destruct (number_dec x) as [Hx|Hx], (number_dec y) as [Hy|Hy].
  - destruct (SFcompare_rank _ _ Hx Hy) as (c & -> & Hc).
    unfold lex_lt, lex_eq in *. destruct c; intuition (try done; lia).
  - rewrite SFcompare_nan by auto. intuition done.
  - rewrite SFcompare_nan by auto. intuition done.
  - rewrite SFcompare_nan by auto. intuition done.
Qed.

Lemma eqb_true (x y : float) :
  (x =? y)%float = true ↔ number x ∧ number y ∧ lex_eq (frank x) (frank y).
Proof.
  rewrite FloatAxioms.eqb_spec. unfold SFeqb, number, frank.
  destruct (number_dec x) as [Hx|Hx], (number_dec y) as [Hy|Hy].
  - destruct (SFcompare_rank _ _ Hx Hy) as (c & -> & Hc).
    unfold lex_lt, lex_eq in *. destruct c; intuition (try done; lia).
  - rewrite SFcompare_nan by auto. intuition done.
  - rewrite SFcompare_nan by auto. intuition done.
  - rewrite SFcompare_nan by auto. intuition done.
Qed.

Lemma is_nan_false (x : float) : PrimFloat.is_nan x = false ↔ number x.
Proof.
  unfold PrimFloat.is_nan. rewrite negb_false_iff, eqb_true.
  unfold lex_eq. intuition.
Qed.

(** Comparisons are read as statements on ranks, which linear arithmetic
    settles. *)
Ltac float_order :=
  repeat match goal with
  | H : (_ <? _)%float = true |- _ => apply ltb_true in H
  | H : (_ <=? _)%float = true |- _ => apply leb_true in H
  | H : (_ =? _)%float = true |- _ => apply eqb_true in H
  | H : (_ <? _)%float = false |- _ => apply not_true_iff_false in H; rewrite ltb_true in H
  | H : (_ <=? _)%float = false |- _ => apply not_true_iff_false in H; rewrite leb_true in H
  | H : (_ =? _)%float = false |- _ => apply not_true_iff_false in H; rewrite eqb_true in H
  | H : PrimFloat.is_nan _ = false |- _ => apply is_nan_false in H
  | |- (_ <? _)%float = true => apply ltb_true
  | |- (_ <=? _)%float = true => apply leb_true
  | |- (_ =? _)%float = true => apply eqb_true
  | |- (_ <? _)%float = false => apply not_true_iff_false; rewrite ltb_true
  | |- (_ <=? _)%float = false => apply not_true_iff_false; rewrite leb_true
  | |- (_ =? _)%float = false => apply not_true_iff_false; rewrite eqb_true
  | |- PrimFloat.is_nan _ = false => apply is_nan_false
  end;
  unfold lex_lt, lex_eq in *; intuition (try done; try lia).

Lemma ltb_leb (x y : float) : (x <? y)%float = true → (x <=? y)%float = true.
Proof. intros. float_order. Qed.

Lemma ltb_false_leb (x y : float) :
  PrimFloat.is_nan x = false → PrimFloat.is_nan y = false →
  (x <? y)%float = false → (y <=? x)%float = true.
Proof. intros. float_order. Qed.

Lemma leb_trans64 (x y z : float) :
  (x <=? y)%float = true → (y <=? z)%float = true → (x <=? z)%float = true.
Proof. intros. float_order. Qed.

Lemma ltb_trans64 (x y z : float) :
  (x <? y)%float = true → (y <? z)%float = true → (x <? z)%float = true.
Proof. intros. float_order. Qed.

Lemma ltb_leb_trans64 (x y z : float) :
  (x <? y)%float = true → (y <=? z)%float = true → (x <? z)%float = true.
Proof. intros. float_order. Qed.

Lemma ltb_eqb_contra (x y v : float) :
  (x <? y)%float = true → (x =? v)%float = true → (y =? v)%float = true → False.
Proof. intros. float_order. Qed.

Lemma leb_antisym64 (x y : float) :
  (x <=? y)%float = true → (y <=? x)%float = true → (x =? y)%float = true.
Proof. intros. float_order. Qed.

Lemma sqrt_not_negative (x : float) :
  (x <? 0)%float = false → (PrimFloat.sqrt x <? 0)%float = false.
Proof.
  rewrite !ltb_zero, FloatAxioms.sqrt_spec. unfold SF64sqrt.
  destruct (Prim2SF x) as [[]|[]| |[] mx ex]; cbn; try done.
  intros _. destruct (SFsqrt_core_binary _ _ _ _) as [[mz ez] lz].
  apply round_not_negative.
Qed.

(** ** Numbers and NaN *)

Lemma is_finite_spec (x : float) : PrimFloat.is_finite x = finite (Prim2SF x).
Proof.
  unfold PrimFloat.is_finite, PrimFloat.is_nan, PrimFloat.is_infinity.
  rewrite !FloatAxioms.eqb_spec, FloatAxioms.abs_spec.
  change (Prim2SF infinity) with (S754_infinity false).
  destruct (Prim2SF x) as [[]|[]| |[] m e]; cbn; try done.
  - unfold SFeqb. cbn. by rewrite Z.compare_refl, Pos.compare_cont_refl.
  - unfold SFeqb. cbn. by rewrite Z.compare_refl, Pos.compare_cont_refl.
Qed.

Lemma iter_pos_invariant {A} (P : A → Prop) (f : A → A) (n : positive) (x : A) :
  (∀ y, P y → P (f y)) → P x → P (SpecFloat.iter_pos f n x).
Proof.
  intros Hf. revert x. induction n as [n IH|n IH|]; intros x Hx; cbn; auto.
Qed.

Lemma shr_1_nonneg (mrs : shr_record) : (0 ≤ shr_m mrs → 0 ≤ shr_m (shr_1 mrs))%Z.
Proof. destruct mrs as [[|[m|m|]|[m|m|]] r s]; cbn; lia. Qed.

Lemma shr_fexp_nonneg (m e : Z) (l : location) :
  (0 ≤ m → 0 ≤ shr_m (shr_fexp prec emax m e l).1)%Z.
Proof.
  intros Hm. unfold shr_fexp, shr.
  assert (H0 : (0 ≤ shr_m (shr_record_of_loc m l))%Z)
    by by destruct l as [|[]].
  destruct (fexp prec emax (Zdigits2 m + e) - e)%Z as [|p|p]; cbn [fst]; try done.
  apply (iter_pos_invariant (λ r, 0 ≤ shr_m r)%Z); [apply shr_1_nonneg|done].
Qed.

Lemma round_nearest_even_nonneg (m : Z) (l : location) :
  (0 ≤ m → 0 ≤ round_nearest_even m l)%Z.
Proof. intros Hm. unfold round_nearest_even. destruct l as [|[]]; try done; [case_match|]; lia. Qed.

(** Rounding a non-negative mantissa gives a number. *)
Lemma round_number (sx : bool) (mx ex : Z) (lx : location) :
  (0 ≤ mx)%Z → binary_round_aux prec emax sx mx ex lx ≠ S754_nan.
Proof.
  intros Hm. unfold binary_round_aux.
  pose proof (shr_fexp_nonneg mx ex lx Hm) as H1.
  destruct (shr_fexp prec emax mx ex lx) as [mrs' e']. cbn [fst] in H1.
  pose proof (shr_fexp_nonneg (round_nearest_even (shr_m mrs') (loc_of_shr_record mrs'))
                e' loc_Exact (round_nearest_even_nonneg _ _ H1)) as H2.
  destruct (shr_fexp prec emax _ e' loc_Exact) as [mrs'' e'']. cbn [fst] in H2.
  destruct (shr_m mrs'') as [|m|m]; [done| |lia].
  by destruct (e'' <=? emax - prec)%Z.
Qed.

Lemma normalize_number (m e : Z) (szero : bool) :
  binary_normalize prec emax m e szero ≠ S754_nan.
Proof.
  unfold binary_normalize, binary_round.
  destruct m as [|m|m]; [done| |].
  - destruct (shl_align _ _ _) as [mz ez]. by apply round_number.
  - destruct (shl_align _ _ _) as [mz ez]. by apply round_number.
Qed.

(** A finite number minus a number is a number. *)
Lemma sub_number (k p : float) :
  PrimFloat.is_finite k = true → number p → number (k - p).
Proof.
  rewrite is_finite_spec. unfold number.
  rewrite FloatAxioms.sub_spec. unfold SF64sub.
  destruct (Prim2SF k) as [[]|[]| |[] mk ek], (Prim2SF p) as [[]|[]| |[] mp ep];
    cbn; try done; intros _ _; apply normalize_number.
Qed.

Lemma abs_number (x : float) : number x → number (PrimFloat.abs x).
Proof.
  unfold number. rewrite FloatAxioms.abs_spec. by destruct (Prim2SF x).
Qed.

Lemma abs_nan (x : float) : Prim2SF x = S754_nan → Prim2SF (PrimFloat.abs x) = S754_nan.
Proof. rewrite FloatAxioms.abs_spec. by intros ->. Qed.

Lemma sub_nan_r (k p : float) : Prim2SF p = S754_nan → Prim2SF (k - p) = S754_nan.
Proof.
  rewrite FloatAxioms.sub_spec. unfold SF64sub. intros ->.
  by destruct (Prim2SF k) as [[]|[]| |[] mk ek].
Qed.

(** Adding to zero: a number stays a number. *)
Lemma zero_add_number (v : float) : number v → number (0 + v).
Proof.
  unfold number. rewrite FloatAxioms.add_spec. unfold SF64add.
  rewrite Prim2SF_zero. by destruct (Prim2SF v) as [[]|[]| |[] m e].
Qed.

(** Zero divided by a number other than zero, times a hundred, is zero. *)
Lemma zero_percent (t : float) :
  number t → (t =? 0)%float = false →
  ∃ s, Prim2SF (0 / t * 100) = S754_zero s.
Proof.
  unfold number. rewrite eqb_zero, FloatAxioms.mul_spec, FloatAxioms.div_spec.
  unfold SF64mul, SF64div. rewrite Prim2SF_zero.
  change (Prim2SF 100) with (S754_finite false 7036874417766400 (-46)).
  destruct (Prim2SF t) as [[]|[]| |[] m e]; cbn; try done; eauto.
Qed.

(** ** Rounding stays in range *)

Section rounding.
#[local] Open Scope Z_scope.

Lemma Zdigits2_nonneg (m : Z) : 0 ≤ Zdigits2 m.
Proof. by destruct m. Qed.

Lemma digits2_pos_size (p : positive) : digits2_pos p = Pos.size p.
Proof. induction p as [p IH|p IH|]; cbn; by rewrite ?IH. Qed.

Lemma Zdigits2_log2 (m : Z) : 0 < m → Zdigits2 m = Z.log2 m + 1.
Proof.
  destruct m as [|p|p]; try done. intros _. cbn [Zdigits2].
  rewrite digits2_pos_size. destruct p as [p|p|]; cbn; lia.
Qed.

Lemma Zdigits2_lt_pow2 (m k : Z) : 0 ≤ m → 0 ≤ k → m < 2 ^ k → Zdigits2 m ≤ k.
Proof.
  intros Hm Hk Hlt. destruct (decide (m = 0)) as [->|Hne]; [done|].
  rewrite Zdigits2_log2 by lia. apply Z.log2_lt_pow2 in Hlt; lia.
Qed.

Lemma Zdigits2_bound (m : Z) : 0 ≤ m → m < 2 ^ Zdigits2 m.
Proof.
  intros Hm. destruct (decide (m = 0)) as [->|Hne]; [done|].
  rewrite Zdigits2_log2 by lia.
  pose proof (Z.log2_spec m). replace (Z.log2 m + 1) with (Z.succ (Z.log2 m)) by lia.
  lia.
Qed.

Lemma Zdigits2_succ (m : Z) : 0 ≤ m → Zdigits2 (m + 1) ≤ Zdigits2 m + 1.
Proof.
  intros Hm. pose proof (Zdigits2_nonneg m) as Hd.
  apply Zdigits2_lt_pow2; [lia..|].
  pose proof (Zdigits2_bound m Hm). rewrite Z.pow_add_r by lia. lia.
Qed.

Lemma shr_1_digits (r : shr_record) :
  0 ≤ shr_m r →
  0 ≤ shr_m (shr_1 r) ∧ Zdigits2 (shr_m (shr_1 r)) = Z.max 0 (Zdigits2 (shr_m r) - 1).
Proof. destruct r as [[|[m|m|]|[m|m|]] r s]; cbn; lia. Qed.

Lemma iter_shr_1_digits (n : positive) (k d : Z) (r : shr_record) :
  0 ≤ k →
  0 ≤ shr_m r ∧ Zdigits2 (shr_m r) ≤ Z.max 0 (d - k) →
  0 ≤ shr_m (SpecFloat.iter_pos shr_1 n r)
  ∧ Zdigits2 (shr_m (SpecFloat.iter_pos shr_1 n r)) ≤ Z.max 0 (d - (k + Zpos n)).
Proof.
  revert k r. induction n as [n IH|n IH|]; intros k r Hk [Hr Hd]; cbn [SpecFloat.iter_pos].
  - destruct (shr_1_digits r Hr) as [H1 H1'].
    destruct (IH (k + 1) (shr_1 r)) as [H2 H2']; [lia|lia|].
    destruct (IH (k + 1 + Zpos n) (SpecFloat.iter_pos shr_1 n (shr_1 r))) as [H3 H3']; [lia|lia|].
    split; [done|]. lia.
  - destruct (IH k r) as [H2 H2']; [lia|lia|].
    destruct (IH (k + Zpos n) (SpecFloat.iter_pos shr_1 n r)) as [H3 H3']; [lia|lia|].
    split; [done|]. lia.
  - destruct (shr_1_digits r Hr) as [H1 H1']. lia.
Qed.

Lemma shr_fexp_in_range (bound m e : Z) (l : location) :
  0 ≤ bound ≤ emax → in_range64 bound m e →
  in_range64 bound (shr_m (shr_fexp prec emax m e l).1) (shr_fexp prec emax m e l).2.
Proof.
  unfold in_range64, shr_fexp, shr, fexp, emin, emax, prec. intros Hb (Hm & Hd & He).
  assert (H0 : shr_m (shr_record_of_loc m l) = m) by by destruct l as [|[]].
  pose proof (Zdigits2_nonneg m) as Hdm.
  destruct (Z.max (Zdigits2 m + e - 53) (3 - 1024 - 53) - e) as [|n|n] eqn:Hn;
    cbn [fst snd]; rewrite ?H0; try done.
  destruct (iter_shr_1_digits n 0 (Zdigits2 m) (shr_record_of_loc m l)) as [H1 H2];
    [lia|rewrite H0; lia|].
  split; [done|]. lia.
Qed.

Lemma round_nearest_even_cases (m : Z) (l : location) :
  round_nearest_even m l = m ∨ round_nearest_even m l = m + 1.
Proof. unfold round_nearest_even. destruct l as [|[]]; auto. by case_match; auto. Qed.

(** Rounding a non-negative mantissa of magnitude below [2^emax] gives a
    finite float: the infinities are out of reach. *)
Lemma round_finite (s : bool) (m e : Z) (l : location) :
  in_range64 (emax - 1) m e → finite (binary_round_aux prec emax s m e l) = true.
Proof.
  intros Hin. unfold binary_round_aux.
  pose proof (shr_fexp_in_range (emax - 1) m e l) as H1.
  destruct (shr_fexp prec emax m e l) as [mrs' e']. cbn [fst snd] in H1.
  destruct H1 as (H1m & H1d & H1e); [done..|].
  set (m1 := round_nearest_even (shr_m mrs') (loc_of_shr_record mrs')).
  assert (Hm1 : in_range64 emax m1 e').
  { unfold in_range64.
    pose proof (Zdigits2_succ (shr_m mrs') H1m).
    destruct (round_nearest_even_cases (shr_m mrs') (loc_of_shr_record mrs')) as [Hr|Hr];
      fold m1 in Hr; rewrite Hr; unfold emax in *; lia. }
  pose proof (shr_fexp_in_range emax m1 e' loc_Exact) as H2.
  destruct (shr_fexp prec emax m1 e' loc_Exact) as [mrs'' e'']. cbn [fst snd] in H2.
  destruct H2 as (H2m & H2d & H2e); [done..|].
  destruct (shr_m mrs'') as [|p|p]; [done| |lia].
  apply Z.leb_le in H2e. by rewrite H2e.
Qed.

Lemma valid_in_range (s : bool) (m : positive) (e : Z) :
  valid_binary (S754_finite s m e) = true →
  Zpos (digits2_pos m) + e ≤ emax ∧ e ≤ emax - prec.
Proof.
  unfold valid_binary, SpecFloat.valid_binary, bounded, canonical_mantissa, fexp, emin, emax, prec.
  intros [Hc He]%andb_prop. apply Z.eqb_eq in Hc. apply Z.leb_le in He.
  unfold SpecFloat.fexp, SpecFloat.emin in Hc. lia.
Qed.

Lemma sqrt_core_in_range (m : positive) (e : Z) :
  Zpos (digits2_pos m) + e ≤ emax → e ≤ emax - prec →
  in_range64 (emax - 1) (SFsqrt_core_binary prec emax (Zpos m) e).1.1
    (SFsqrt_core_binary prec emax (Zpos m) e).1.2.
Proof.
  intros Hd He. unfold SFsqrt_core_binary.
  set (e' := Z.min _ _).
  assert (He' : e' ≤ e / 2) by (unfold e'; rewrite (Z.div2_div e); lia).
  clearbody e'.
  set (m' := match e - 2 * e' with Z0 => Zpos m | Zpos _ => Z.shiftl (Zpos m) (e - 2 * e') | Zneg _ => 0 end).
  assert (Hm' : 0 ≤ m' ∧ Zdigits2 m' ≤ Zpos (digits2_pos m) + (e - 2 * e')).
  { unfold m'. clear m'. destruct (e - 2 * e') as [|s|s] eqn:Hs.
    - cbn [Zdigits2]. lia.
    - rewrite Z.shiftl_mul_pow2 by lia.
      assert (Hp : 0 < 2 ^ Zpos s) by (apply Z.pow_pos_nonneg; lia).
      assert (Hpos : 0 < Zpos m * 2 ^ Zpos s) by lia.
      split; [lia|].
      rewrite (Zdigits2_log2 _ Hpos), Z.log2_mul_pow2 by lia.
      pose proof (Zdigits2_log2 (Zpos m)) as Hm. cbn [Zdigits2] in Hm. lia.
    - exfalso. pose proof (Pos2Z.neg_is_neg s). Z.div_mod_to_equations. lia. }
  destruct Hm' as [Hm0 Hmd].
  pose proof (Z.sqrtrem_sqrt m') as Hq.
  destruct (Z.sqrtrem m') as [q r]. cbn [fst] in Hq. subst q.
  cbn [fst snd]. unfold in_range64.
  assert (Hk : Zdigits2 (Z.sqrt m') ≤ (Zdigits2 m' + 1) / 2).
  { pose proof (Zdigits2_nonneg m') as Hdn.
    assert (Hhalf : 0 ≤ (Zdigits2 m' + 1) / 2) by (apply Z.div_pos; lia).
    apply Zdigits2_lt_pow2; [apply Z.sqrt_nonneg|done|].
    apply Z.sqrt_lt_square; [done|apply Z.pow_nonneg; lia|].
    rewrite <- Z.pow_add_r by done.
    eapply Z.lt_le_trans; [apply Zdigits2_bound; lia|].
    apply Z.pow_le_mono_r; [lia|]. Z.div_mod_to_equations. lia. }
  split; [apply Z.sqrt_nonneg|]. unfold emax, prec in *.
  split; Z.div_mod_to_equations; lia.
Qed.

Lemma sqrt_finite (x : float) :
  PrimFloat.is_finite x = true → PrimFloat.is_finite (PrimFloat.sqrt x) = true
  ∨ (x <? 0)%float = true.
Proof.
  rewrite !is_finite_spec, ltb_zero, FloatAxioms.sqrt_spec. unfold SF64sqrt.
  pose proof (FloatAxioms.Prim2SF_valid x) as Hv.
  destruct (Prim2SF x) as [[]|[]| |[] m e]; cbn; auto.
  intros _. left. apply valid_in_range in Hv as [Hd He].
  pose proof (sqrt_core_in_range m e Hd He) as Hin.
  destruct (SFsqrt_core_binary prec emax (Zpos m) e) as [[mz ez] lz].
  by apply round_finite.
Qed.

End rounding.

(** The square root of a finite float is finite. *)
Lemma sqrt_is_finite (x : float) :
  PrimFloat.is_finite x = true → (x <? 0)%float = false →
  PrimFloat.is_finite (PrimFloat.sqrt x) = true.
Proof. intros Hf Hx. destruct (sqrt_finite x Hf); congruence. Qed.

(** A finite float times a zero is a zero. *)
Lemma mul_zero_r (x y : float) :
  PrimFloat.is_finite x = true → (y =? 0)%float = true → (x * y =? 0)%float = true.
Proof.
  rewrite is_finite_spec, !eqb_zero, FloatAxioms.mul_spec. unfold SF64mul.
  by destruct (Prim2SF x) as [[]|[]| |[] mx ex], (Prim2SF y) as [[]|[]| |[] my ey].
Qed.

Lemma mul_zero_l (x y : float) :
  (x =? 0)%float = true → PrimFloat.is_finite y = true → (x * y =? 0)%float = true.
Proof.
  rewrite is_finite_spec, !eqb_zero, FloatAxioms.mul_spec. unfold SF64mul.
  by destruct (Prim2SF x) as [[]|[]| |[] mx ex], (Prim2SF y) as [[]|[]| |[] my ey].
Qed.

(** A zero divided by a float that is neither a zero nor a NaN is a zero. *)
Lemma div_zero_l (x y : float) :
  (x =? 0)%float = true → (y <=? 0)%float = false → PrimFloat.is_nan y = false →
  (x / y =? 0)%float = true.
Proof.
  intros Hx Hy Hn. apply is_nan_false in Hn. revert Hx Hy Hn. unfold number.
  rewrite leb_zero, !eqb_zero, FloatAxioms.div_spec. unfold SF64div.
  by destruct (Prim2SF x) as [[]|[]| |[] mx ex], (Prim2SF y) as [[]|[]| |[] my ey].
Qed.

Lemma sqrt_zero (x : float) : (x =? 0)%float = true → (PrimFloat.sqrt x =? 0)%float = true.
Proof.
  rewrite !eqb_zero, FloatAxioms.sqrt_spec. unfold SF64sqrt.
  by destruct (Prim2SF x) as [[]|[]| |[] mx ex].
Qed.

(** ** EOQ in binary64 *)

Lemma positive_guard (x : float) : (0 <? x)%float = true → (x <=? 0)%float = false.
Proof. intros. float_order. Qed.

Lemma nonneg_guard (x : float) : (0 <=? x)%float = true → (x <? 0)%float = false.
Proof. intros. float_order. Qed.

Lemma eoq64_Ok (D S H : float) :
  (D <=? 0)%float = false → (S <? 0)%float = false → (H <=? 0)%float = false →
  Binary64.EOQAlgorithm.calculate D S H = Ok (PrimFloat.sqrt (2 * D * S / H)).
Proof.
  intros HD HS HH. unfold Binary64.EOQAlgorithm.calculate.
  rewrite HD, HS, HH, truediv64_Ok by by apply leb_false_eqb.
  cbn [mbind result_bind]. rewrite math_sqrt64_Ok; [done|].
  apply div_not_negative; [|done]. apply mul_not_negative; [|done].
  apply mul_not_negative; [done|]. by apply leb_false_ltb.
Qed.

Lemma eoq64_raises (D S H : float) :
  raises_ValueError (Binary64.EOQAlgorithm.calculate D S H)
  ↔ (D <=? 0)%float = true ∨ (S <? 0)%float = true ∨ (H <=? 0)%float = true.
Proof.
  destruct (D <=? 0)%float eqn:HD, (S <? 0)%float eqn:HS, (H <=? 0)%float eqn:HH;
    try (unfold Binary64.EOQAlgorithm.calculate; rewrite ?HD, ?HS, ?HH;
         split; [intros _; auto|intros _; eexists; reflexivity]).
  rewrite eoq64_Ok by done. split; [by intros [m Hm]|]. by intros [|[|]].
Qed.

(** C2, amended.  [EOQAlgorithm.calculate] raises [ValueError] exactly when
    [D <= 0], [S < 0] or [H <= 0] holds as a float comparison, and it
    returns nothing then.  In every other case, so for [D > 0], [S >= 0],
    [H > 0], and also when an argument is a NaN, it returns the binary64
    evaluation [sqrt((2 * D * S) / H)]: neither the division nor
    [math.sqrt] raises there.  EOQ(1000, 50, 2) is 223.60679774997897,
    within 0.005 of 223.61. *)
Theorem eoq_calculate_binary64 (D S H : float) :
  ((0 <? D)%float = true → (0 <=? S)%float = true → (0 <? H)%float = true →
     Binary64.EOQAlgorithm.calculate D S H
     = Ok (PrimFloat.sqrt (2 * D * S / H))) ∧
  ((D <=? 0)%float = false → (S <? 0)%float = false → (H <=? 0)%float = false →
     Binary64.EOQAlgorithm.calculate D S H
     = Ok (PrimFloat.sqrt (2 * D * S / H))) ∧
  (raises_ValueError (Binary64.EOQAlgorithm.calculate D S H)
   ↔ (D <=? 0)%float = true ∨ (S <? 0)%float = true ∨ (H <=? 0)%float = true) ∧
  ((D <=? 0)%float = true ∨ (S <? 0)%float = true ∨ (H <=? 0)%float = true →
     ¬ returns (Binary64.EOQAlgorithm.calculate D S H)) ∧
  (Binary64.EOQAlgorithm.calculate 1000 50 2 = Ok 223.60679774997897%float
   ∧ (PrimFloat.abs (223.60679774997897 - 223.61) <? 0.005)%float = true).
Proof.
  split_and!.
  - intros HD HS HH.
    apply eoq64_Ok; [by apply positive_guard|by apply nonneg_guard|by apply positive_guard].
  - apply eoq64_Ok.
  - apply eoq64_raises.
  - intros Hbad%eoq64_raises [r Hr]. destruct Hbad as [m Hm]. congruence.
  - reflexivity.
  - reflexivity.
Qed.

Lemma eoq_calculate_binary64_witness :
  (0 <? 1000)%float = true ∧ (0 <=? 50)%float = true ∧ (0 <? 2)%float = true ∧
  Binary64.EOQAlgorithm.calculate 1000 50 2 = Ok (PrimFloat.sqrt (2 * 1000 * 50 / 2)).
Proof.
  split; [reflexivity|]. split; [reflexivity|]. split; [reflexivity|].
  apply (proj1 (eoq_calculate_binary64 1000 50 2)); reflexivity.
Defined.

(** The result need not be the square root of [2*D*S/H]: the product
    overflows for D = S = 1e308, and the code returns [inf] although
    [2*D*S/H] is below the square of the largest float; it underflows for
    D = S = 1e-200, and the code returns 0 although [2*D*S/H] is positive. *)
Lemma eoq_calculate_counterexample :
  (∃ d h top : Qc,
     exact_value 1e308 = Some d ∧ exact_value 1 = Some h
     ∧ exact_value max_float = Some top
     ∧ 0 < d ∧ 0 < h ∧ 2 * d * d / h < top * top
     ∧ Binary64.EOQAlgorithm.calculate 1e308 1e308 1 = Ok infinity) ∧
  (∃ d h : Qc,
     exact_value 1e-200 = Some d ∧ exact_value 1 = Some h
     ∧ 0 < d ∧ 0 < h ∧ 0 < 2 * d * d / h
     ∧ Binary64.EOQAlgorithm.calculate 1e-200 1e-200 1 = Ok 0%float).
Proof.
  split.
  - eexists _, _, _. split_and!; [reflexivity..| | | |reflexivity];
      apply (bool_decide_unpack _); by vm_compute.
  - eexists _, _. split_and!; [reflexivity..| | | |reflexivity];
      apply (bool_decide_unpack _); by vm_compute.
Qed.

(** ** Safety stock in binary64 *)

Lemma safety_stock64_Ok (z sigma L : float) :
  (z <? 0)%float = false → (sigma <? 0)%float = false → (L <? 0)%float = false →
  Binary64.SafetyStockAlgorithm.calculate z sigma L
  = Ok (z * sigma * PrimFloat.sqrt L)%float.
Proof.
  intros Hz Hs HL. unfold Binary64.SafetyStockAlgorithm.calculate.
  by rewrite Hz, Hs, HL, math_sqrt64_Ok.
Qed.

Lemma safety_stock64_raises (z sigma L : float) :
  raises_ValueError (Binary64.SafetyStockAlgorithm.calculate z sigma L)
  ↔ (z <? 0)%float = true ∨ (sigma <? 0)%float = true ∨ (L <? 0)%float = true.
Proof.
  destruct (z <? 0)%float eqn:Hz, (sigma <? 0)%float eqn:Hs, (L <? 0)%float eqn:HL;
    try (unfold Binary64.SafetyStockAlgorithm.calculate; rewrite ?Hz, ?Hs, ?HL;
         split; [intros _; auto|intros _; eexists; reflexivity]).
  rewrite safety_stock64_Ok by done. split; [by intros [m Hm]|]. by intros [|[|]].
Qed.

(** C5, amended.  [SafetyStockAlgorithm.calculate] raises [ValueError]
    exactly when one of its arguments compares below zero.  In every other
    case, so for [z >= 0], [sigma >= 0], [L >= 0], it returns the binary64
    evaluation [(z * sigma) * sqrt(L)].  When [sigma] is zero and [z] and
    [L] are finite, the result is a zero. *)
Theorem safety_stock_binary64 (z sigma L : float) :
  ((0 <=? z)%float = true → (0 <=? sigma)%float = true → (0 <=? L)%float = true →
     Binary64.SafetyStockAlgorithm.calculate z sigma L
     = Ok (z * sigma * PrimFloat.sqrt L)%float) ∧
  ((z <? 0)%float = false → (sigma <? 0)%float = false → (L <? 0)%float = false →
     Binary64.SafetyStockAlgorithm.calculate z sigma L
     = Ok (z * sigma * PrimFloat.sqrt L)%float) ∧
  (raises_ValueError (Binary64.SafetyStockAlgorithm.calculate z sigma L)
   ↔ (z <? 0)%float = true ∨ (sigma <? 0)%float = true ∨ (L <? 0)%float = true) ∧
  ((z <? 0)%float = true ∨ (sigma <? 0)%float = true ∨ (L <? 0)%float = true →
     ¬ returns (Binary64.SafetyStockAlgorithm.calculate z sigma L)) ∧
  ((sigma =? 0)%float = true →
   PrimFloat.is_finite z = true → (0 <=? z)%float = true →
   PrimFloat.is_finite L = true → (0 <=? L)%float = true →
     ∃ r, Binary64.SafetyStockAlgorithm.calculate z sigma L = Ok r
          ∧ (r =? 0)%float = true).
Proof.
  split_and!.
  - intros Hz Hs HL. apply safety_stock64_Ok; by apply nonneg_guard.
  - apply safety_stock64_Ok.
  - apply safety_stock64_raises.
  - intros Hbad%safety_stock64_raises [r Hr]. destruct Hbad as [m Hm]. congruence.
  - intros Hs Hfz Hz HfL HL. eexists. split.
    + apply safety_stock64_Ok; [by apply nonneg_guard| |by apply nonneg_guard].
      clear -Hs. float_order.
    + apply mul_zero_l; [by apply mul_zero_r|].
      apply sqrt_is_finite; [done|by apply nonneg_guard].
Qed.

Lemma safety_stock_binary64_witness :
  (0 <=? 1.65)%float = true ∧ (0 <=? 10)%float = true ∧ (0 <=? 7)%float = true ∧
  Binary64.SafetyStockAlgorithm.calculate 1.65 10 7
  = Ok (1.65 * 10 * PrimFloat.sqrt 7)%float.
Proof.
  split; [reflexivity|]. split; [reflexivity|]. split; [reflexivity|].
  apply (proj1 (safety_stock_binary64 1.65 10 7)); reflexivity.
Defined.

(** The result need not be [z * sigma * sqrt(L)]: for z = sigma = 1e308
    and L = 0 that product is 0 and the code returns a NaN; for
    z = sigma = 1e-200 and L = 1e300 it is positive and the code returns 0.
    And with sigma = 0 the result is a NaN, not 0, when z is infinite. *)
Lemma safety_stock_counterexample :
  (∃ z l : Qc,
     exact_value 1e308 = Some z ∧ exact_value 0 = Some l
     ∧ (Qc2R z * Qc2R z * sqrt (Qc2R l) = 0)%R
     ∧ Binary64.SafetyStockAlgorithm.calculate 1e308 1e308 0 = Ok nan) ∧
  (∃ z l : Qc,
     exact_value 1e-200 = Some z ∧ exact_value 1e300 = Some l
     ∧ (0 < Qc2R z * Qc2R z * sqrt (Qc2R l))%R
     ∧ Binary64.SafetyStockAlgorithm.calculate 1e-200 1e-200 1e300 = Ok 0%float) ∧
  Binary64.SafetyStockAlgorithm.calculate infinity 0 1 = Ok nan.
Proof.
  split_and!; [| |reflexivity].
  - eexists _, _. split_and!; [reflexivity..| |reflexivity].
    rewrite Qc2R_0, sqrt_0. lra.
  - eexists _, _. split_and!; [reflexivity..| |reflexivity].
    apply Rmult_lt_0_compat; [apply Rmult_lt_0_compat|apply sqrt_lt_R0];
      apply Qc2R_pos; apply (bool_decide_unpack _); by vm_compute.
Qed.

(** ** EOQ: the cost of an order quantity, and the sign of the result *)

Lemma two_not_zero : (2 =? 0)%float = false.
Proof. reflexivity. Qed.

Lemma total_cost64_Ok (D S H Q : float) :
  (Q <=? 0)%float = false →
  Binary64.EOQAlgorithm.calculate_total_cost D S H Q
  = Ok ((D / Q * S + Q / 2 * H)%float, (D / Q * S)%float, (Q / 2 * H)%float).
Proof.
  intros HQ. unfold Binary64.EOQAlgorithm.calculate_total_cost.
  rewrite HQ, (truediv64_Ok D Q) by by apply leb_false_eqb.
  cbn [mbind result_bind]. by rewrite (truediv64_Ok Q 2) by apply two_not_zero.
Qed.

(** X1.  [calculate_total_cost] raises [ValueError] exactly when
    [order_quantity <= 0] holds as a float comparison, and never
    [ZeroDivisionError]: a quantity that passes the guard is not a zero.
    Otherwise it returns the binary64 values [(D / Q) * S] for ordering,
    [(Q / 2) * H] for holding, and their sum, also when an argument is a
    NaN. *)
Theorem total_cost_binary64 (D S H Q : float) :
  (raises_ValueError (Binary64.EOQAlgorithm.calculate_total_cost D S H Q)
   ↔ (Q <=? 0)%float = true) ∧
  Binary64.EOQAlgorithm.calculate_total_cost D S H Q ≠ Raise ZeroDivisionError ∧
  ((Q <=? 0)%float = false →
     Binary64.EOQAlgorithm.calculate_total_cost D S H Q
     = Ok ((D / Q * S + Q / 2 * H)%float, (D / Q * S)%float, (Q / 2 * H)%float)) ∧
  ((0 <? Q)%float = true →
     returns (Binary64.EOQAlgorithm.calculate_total_cost D S H Q)).
Proof.
  destruct (Q <=? 0)%float eqn:HQ.
  - unfold Binary64.EOQAlgorithm.calculate_total_cost. rewrite HQ.
    split_and!; [|done|done|].
    + split; [done|]. intros _. by eexists.
    + intros HQ'. exfalso. clear -HQ HQ'. float_order.
  - rewrite total_cost64_Ok by done. split_and!; [|done|done|].
    + split; [by intros [m Hm]|done].
    + intros _. by eexists.
Qed.

Lemma total_cost_binary64_witness :
  (200 <=? 0)%float = false ∧
  Binary64.EOQAlgorithm.calculate_total_cost 1000 50 2 200
  = Ok (450, 250, 200)%float.
Proof.
  split; [reflexivity|].
  exact (proj1 (proj2 (proj2 (total_cost_binary64 1000 50 2 200))) eq_refl).
Defined.

(** X3.  A quantity returned by [EOQAlgorithm.calculate] never compares
    below zero, and it is a zero when the ordering cost is a zero, the
    doubled demand is finite and the holding cost is not a NaN. *)
Theorem eoq_not_negative (D S H r : float) :
  Binary64.EOQAlgorithm.calculate D S H = Ok r →
  (r <? 0)%float = false ∧
  ((S =? 0)%float = true → PrimFloat.is_finite (2 * D) = true →
   PrimFloat.is_nan H = false → (r =? 0)%float = true).
Proof.
  intros Hr.
  destruct (D <=? 0)%float eqn:HD; [by unfold Binary64.EOQAlgorithm.calculate in Hr; rewrite HD in Hr|].
  destruct (S <? 0)%float eqn:HS; [by unfold Binary64.EOQAlgorithm.calculate in Hr; rewrite HD, HS in Hr|].
  destruct (H <=? 0)%float eqn:HH; [by unfold Binary64.EOQAlgorithm.calculate in Hr; rewrite HD, HS, HH in Hr|].
  rewrite eoq64_Ok in Hr by done. injection Hr as <-. split.
  - apply sqrt_not_negative, div_not_negative; [|done].
    apply mul_not_negative; [|done]. apply mul_not_negative; [done|].
    by apply leb_false_ltb.
  - intros HS0 Hfin Hnan. apply sqrt_zero, div_zero_l; [|done..].
    by apply mul_zero_r.
Qed.

Lemma eoq_not_negative_witness :
  Binary64.EOQAlgorithm.calculate 1000 50 2 = Ok 223.60679774997897%float ∧
  (223.60679774997897 <? 0)%float = false.
Proof.
  split; [reflexivity|].
  exact (proj1 (eoq_not_negative 1000 50 2 223.60679774997897 eq_refl)).
Defined.

(** ** Reorder point from the annual demand *)

Lemma rop64_Ok (d L ss : float) :
  (d <? 0)%float = false → (L <? 0)%float = false → (ss <? 0)%float = false →
  Binary64.ReorderPointAlgorithm.calculate d L ss = Ok (d * L + ss)%float.
Proof.
  intros Hd HL Hss. unfold Binary64.ReorderPointAlgorithm.calculate.
  by rewrite Hd, HL, Hss.
Qed.

Lemma rop64_raises (d L ss : float) :
  raises_ValueError (Binary64.ReorderPointAlgorithm.calculate d L ss)
  ↔ (d <? 0)%float = true ∨ (L <? 0)%float = true ∨ (ss <? 0)%float = true.
Proof.
  destruct (d <? 0)%float eqn:Hd, (L <? 0)%float eqn:HL, (ss <? 0)%float eqn:Hss;
    try (unfold Binary64.ReorderPointAlgorithm.calculate; rewrite ?Hd, ?HL, ?Hss;
         split; [intros _; auto|intros _; eexists; reflexivity]).
  rewrite rop64_Ok by done. split; [by intros [m Hm]|]. by intros [|[|]].
Qed.

(** X5.  [calculate_from_annual] never raises [ZeroDivisionError]: working
    days that pass its guard are not a zero.  It raises [ValueError]
    exactly when [working_days <= 0], or the quotient [D / w], the lead
    time or the safety stock compares below zero, and otherwise returns
    the binary64 value [(D / w) * L + ss].  A demand that is not below
    zero gives a quotient that is not below zero. *)
Theorem rop_from_annual_binary64 (D L ss w : float) :
  Binary64.ReorderPointAlgorithm.calculate_from_annual D L ss w
    ≠ Raise ZeroDivisionError ∧
  ((w <=? 0)%float = false →
     Binary64.ReorderPointAlgorithm.calculate_from_annual D L ss w
     = Binary64.ReorderPointAlgorithm.calculate (D / w) L ss) ∧
  (raises_ValueError (Binary64.ReorderPointAlgorithm.calculate_from_annual D L ss w)
   ↔ (w <=? 0)%float = true ∨ (D / w <? 0)%float = true
     ∨ (L <? 0)%float = true ∨ (ss <? 0)%float = true) ∧
  ((w <=? 0)%float = false → (D / w <? 0)%float = false →
   (L <? 0)%float = false → (ss <? 0)%float = false →
     Binary64.ReorderPointAlgorithm.calculate_from_annual D L ss w
     = Ok (D / w * L + ss)%float) ∧
  ((D <? 0)%float = false → (w <=? 0)%float = false → (D / w <? 0)%float = false).
Proof.
  assert (Hunfold : (w <=? 0)%float = false →
    Binary64.ReorderPointAlgorithm.calculate_from_annual D L ss w
    = Binary64.ReorderPointAlgorithm.calculate (D / w) L ss).
  { intros Hw. unfold Binary64.ReorderPointAlgorithm.calculate_from_annual.
    by rewrite Hw, truediv64_Ok by by apply leb_false_eqb. }
  split_and!; [| done | | |].
  - destruct (w <=? 0)%float eqn:Hw.
    + unfold Binary64.ReorderPointAlgorithm.calculate_from_annual. by rewrite Hw.
    + rewrite Hunfold by done. unfold Binary64.ReorderPointAlgorithm.calculate.
      by repeat case_match.
  - destruct (w <=? 0)%float eqn:Hw.
    + unfold Binary64.ReorderPointAlgorithm.calculate_from_annual. rewrite Hw.
      split; [auto|]. intros _. by eexists.
    + rewrite Hunfold, rop64_raises by done. split; [auto|]. by intros [|].
  - intros Hw Hd HL Hss. rewrite Hunfold by done. by apply rop64_Ok.
  - apply div_not_negative.
Qed.

Lemma rop_from_annual_binary64_witness :
  (365 <=? 0)%float = false ∧
  Binary64.ReorderPointAlgorithm.calculate_from_annual 3650 5 20 365
  = Binary64.ReorderPointAlgorithm.calculate (3650 / 365) 5 20.
Proof.
  split; [reflexivity|].
  exact (proj1 (proj2 (rop_from_annual_binary64 3650 5 20 365)) eq_refl).
Defined.

(** ** Safety stock: sign *)

(** X11.  A safety stock returned by [SafetyStockAlgorithm.calculate]
    never compares below zero; it is a zero when the Z-score is a zero
    and the deviation and the lead time are finite, and when the lead
    time is a zero and [z * sigma] is finite. *)
Theorem safety_stock_not_negative (z sigma L r : float) :
  Binary64.SafetyStockAlgorithm.calculate z sigma L = Ok r →
  (r <? 0)%float = false ∧
  ((z =? 0)%float = true → PrimFloat.is_finite sigma = true →
   PrimFloat.is_finite L = true → (r =? 0)%float = true) ∧
  ((L =? 0)%float = true → PrimFloat.is_finite (z * sigma) = true →
   (r =? 0)%float = true).
Proof.
  intros Hr.
  destruct (z <? 0)%float eqn:Hz;
    [by unfold Binary64.SafetyStockAlgorithm.calculate in Hr; rewrite Hz in Hr|].
  destruct (sigma <? 0)%float eqn:Hs;
    [by unfold Binary64.SafetyStockAlgorithm.calculate in Hr; rewrite Hz, Hs in Hr|].
  destruct (L <? 0)%float eqn:HL;
    [by unfold Binary64.SafetyStockAlgorithm.calculate in Hr; rewrite Hz, Hs, HL in Hr|].
  rewrite safety_stock64_Ok in Hr by done. injection Hr as <-. split_and!.
  - apply mul_not_negative; [by apply mul_not_negative|by apply sqrt_not_negative].
  - intros Hz0 Hfs HfL. apply mul_zero_l; [by apply mul_zero_l|].
    by apply sqrt_is_finite.
  - intros HL0 Hf. apply mul_zero_r; [done|]. by apply sqrt_zero.
Qed.

Lemma safety_stock_not_negative_witness :
  Binary64.SafetyStockAlgorithm.calculate 1.65 10 7 = Ok 43.654896632565745%float ∧
  (43.654896632565745 <? 0)%float = false.
Proof.
  split; [reflexivity|].
  exact (proj1 (safety_stock_not_negative 1.65 10 7 43.654896632565745 eq_refl)).
Defined.

(** ** Service levels in binary64 *)

Section min_from64.
Context {A : Type} (key : A → float).

Lemma min_from64_snoc (best x : A) (l : list A) :
  Binary64.min_from key best (l ++ [x])
  = if (key x <? key (Binary64.min_from key best l))%float then x
    else Binary64.min_from key best l.
Proof. revert best. induction l as [|y l IH]; intros best; [done|]. apply IH. Qed.

Lemma min_from64_elem_of (best : A) (l : list A) :
  Binary64.min_from key best l ∈ best :: l.
Proof.
  revert best. induction l as [|x l IH]; intros best; cbn.
  - apply list_elem_of_here.
  - specialize (IH (if (key x <? key best)%float then x else best)).
    apply elem_of_cons in IH as [->|IH].
    + case_match; [apply list_elem_of_further|]; apply list_elem_of_here.
    + by do 2 apply list_elem_of_further.
Qed.

(** When no key is a NaN, [min] returns the first element of least key. *)
Lemma min_from64_first_least (best : A) (l : list A) :
  Forall (λ x, PrimFloat.is_nan (key x) = false) (best :: l) →
  ∃ l1 l2, best :: l = l1 ++ Binary64.min_from key best l :: l2
    ∧ Forall (λ x, (key (Binary64.min_from key best l) <? key x)%float = true) l1
    ∧ Forall (λ x, (key (Binary64.min_from key best l) <=? key x)%float = true) l2.
Proof.
  induction l as [|x l IH] using rev_ind; intros Hnum.
  { exists [], []. by repeat split. }
  rewrite app_comm_cons in Hnum. apply Forall_app in Hnum as [Hnum Hx].
  rewrite Forall_singleton in Hx.
  destruct (IH Hnum) as (l1 & l2 & Heq & Hl1 & Hl2).
  rewrite min_from64_snoc.
  assert (Hm : PrimFloat.is_nan (key (Binary64.min_from key best l)) = false).
  { pose proof (min_from64_elem_of best l) as Hin.
    by apply (proj1 (list.Forall_forall _ _) Hnum) in Hin. }
  set (m := Binary64.min_from key best l) in *.
  destruct (key x <? key m)%float eqn:Hlt.
  - exists (best :: l), []. split_and!; [done| |done].
    rewrite Heq. apply Forall_app. split.
    + eapply List.Forall_impl; [|exact Hl1]. intros y Hy. cbn in *.
      by eapply ltb_trans64.
    + constructor; [exact Hlt|].
      eapply List.Forall_impl; [|exact Hl2]. intros y Hy. cbn in *.
      by eapply ltb_leb_trans64.
  - exists l1, (l2 ++ [x]). split_and!; [|done|].
    + by rewrite app_comm_cons, Heq, <- app_assoc.
    + apply Forall_app. split; [done|]. apply Forall_singleton.
      apply ltb_false_leb; [exact Hx|exact Hm|exact Hlt].
Qed.

End min_from64.

Lemma eqb_congruence (p k k' : float) :
  (p =? k)%float = true → (k' =? p)%float = (k' =? k)%float.
Proof.
  intros Hp. destruct (k' =? p)%float eqn:H1, (k' =? k)%float eqn:H2; try done;
    exfalso; float_order.
Qed.

Lemma dict_get64_eqb {V} (d : list (float * V)) (p k : float) :
  (p =? k)%float = true → Binary64.dict_get d p = Binary64.dict_get d k.
Proof.
  intros Hp. induction d as [|[k' v] d IH]; cbn; [done|].
  by rewrite (eqb_congruence p k k' Hp), IH.
Qed.

Lemma dict_get64_None {V} (d : list (float * V)) (k : float) :
  Binary64.dict_get d k = None ↔ Forall (λ kv, (kv.1 =? k)%float = false) d.
Proof.
  induction d as [|[k' v] d IH]; cbn; [done|].
  rewrite list.Forall_cons. cbn. destruct (k' =? k)%float; [|by rewrite IH; intuition].
  split; [done|]. by intros [? _].
Qed.

Lemma dict_get64_elem_of {V} (d : list (float * V)) (k : float) (v : V) :
  Binary64.dict_get d k = Some v → ∃ k', (k', v) ∈ d ∧ (k' =? k)%float = true.
Proof.
  induction d as [|[k' v'] d IH]; cbn; [done|].
  destruct (k' =? k)%float eqn:Hk.
  - intros [= ->]. exists k'. split; [apply list_elem_of_here|done].
  - intros (k'' & Hin & Hk'')%IH. exists k''. split; [by apply list_elem_of_further|done].
Qed.

(** Every key of the table finds its own value: no two keys are equal. *)
Lemma service_levels_lookup :
  Forall (λ kv, Binary64.dict_get Binary64.SafetyStockAlgorithm.service_levels kv.1
                = Some kv.2)
    Binary64.SafetyStockAlgorithm.service_levels.
Proof. repeat constructor. Qed.

Lemma service_levels_finite :
  Forall (λ kv, PrimFloat.is_finite kv.1 = true)
    Binary64.SafetyStockAlgorithm.service_levels.
Proof. repeat constructor. Qed.

Lemma service_levels_not_negative :
  Forall (λ kv, (kv.2 <? 0)%float = false ∧ (0 <=? kv.2)%float = true
                ∧ (kv.2 <=? 3.09)%float = true)
    Binary64.SafetyStockAlgorithm.service_levels.
Proof. repeat constructor. Qed.

Lemma dict_get64_own {V} (d : list (float * V)) (k : float) (v : V) :
  Forall (λ kv, Binary64.dict_get d kv.1 = Some kv.2) d →
  (k, v) ∈ d → Binary64.dict_get d k = Some v.
Proof. intros Hd Hin. exact (proj1 (list.Forall_forall _ _) Hd (k, v) Hin). Qed.

Lemma get_z64_exact (p k z : float) :
  (k, z) ∈ Binary64.SafetyStockAlgorithm.service_levels → (p =? k)%float = true →
  Binary64.SafetyStockAlgorithm.get_z_score_for_service_level p = Ok z.
Proof.
  intros Hin Hp. unfold Binary64.SafetyStockAlgorithm.get_z_score_for_service_level.
  rewrite (dict_get64_eqb _ p k Hp).
  by rewrite (dict_get64_own _ k z service_levels_lookup Hin).
Qed.

Lemma Forall_keys64 {V} (P : float → Prop) (l : list (float * V)) :
  Forall P l.*1 → Forall (λ kv, P kv.1) l.
Proof.
  induction l as [|kv l IH]; cbn; [done|].
  inversion 1; subst. constructor; auto.
Qed.

Lemma get_z64_closest (p : float) :
  PrimFloat.is_nan p = false →
  Binary64.dict_get Binary64.SafetyStockAlgorithm.service_levels p = None →
  ∃ k z, Binary64.SafetyStockAlgorithm.get_z_score_for_service_level p = Ok z
         ∧ first_nearest64 Binary64.SafetyStockAlgorithm.service_levels p k z.
Proof.
  intros Hp Hnone. unfold Binary64.SafetyStockAlgorithm.get_z_score_for_service_level.
  rewrite Hnone. clear Hnone.
  set (key := λ x : float, PrimFloat.abs (x - p)).
  assert (Hnum : Forall (λ x, PrimFloat.is_nan (key x) = false)
                   (Binary64.dict_keys Binary64.SafetyStockAlgorithm.service_levels)).
  { unfold Binary64.dict_keys. apply Forall_fmap.
    eapply List.Forall_impl; [|exact service_levels_finite].
    intros [k z] Hk. cbn in *. apply is_nan_false, abs_number, sub_number; [done|].
    by apply is_nan_false. }
  pose proof service_levels_lookup as Hlook.
  destruct Binary64.SafetyStockAlgorithm.service_levels as [|[k0 z0] d] eqn:Hd; [done|].
  unfold Binary64.dict_keys in *. cbn [fmap list_fmap fst Binary64.py_min mbind result_bind] in *.
  destruct (min_from64_first_least key k0 d.*1 Hnum) as (ks1 & ks2 & Heq & Hks1 & Hks2).
  set (r := Binary64.min_from key k0 d.*1) in *.
  change (k0 :: d.*1) with (((k0, z0) :: d).*1) in Heq.
  apply fmap_app_inv in Heq as (l1 & l' & -> & Hl' & Hd').
  symmetry in Hl'. apply fmap_cons_inv in Hl' as ([k z] & l2 & Hr & -> & ->).
  cbn in Hr. subst k. exists r, z. split.
  - unfold Binary64.dict_getitem.
    rewrite (dict_get64_own _ r z Hlook); [done|].
    rewrite Hd'. apply elem_of_app. right. apply list_elem_of_here.
  - exists l1, l2. split; [done|]. split.
    + by apply Forall_keys64 in Hks1.
    + by apply Forall_keys64 in Hks2.
Qed.

(** Whatever the percentage, a NaN or an infinity included, the result is
    a value of the table. *)
Lemma get_z64_total (p : float) :
  ∃ k z, (k, z) ∈ Binary64.SafetyStockAlgorithm.service_levels
         ∧ Binary64.SafetyStockAlgorithm.get_z_score_for_service_level p = Ok z.
Proof.
  unfold Binary64.SafetyStockAlgorithm.get_z_score_for_service_level.
  destruct (Binary64.dict_get _ p) as [z|] eqn:Hg.
  - apply dict_get64_elem_of in Hg as (k & Hin & _). by exists k, z.
  - set (key := λ x : float, PrimFloat.abs (x - p)).
    pose proof service_levels_lookup as Hlook.
    destruct Binary64.SafetyStockAlgorithm.service_levels as [|[k0 z0] d] eqn:Hd; [done|].
    unfold Binary64.dict_keys. cbn [fmap list_fmap fst Binary64.py_min mbind result_bind].
    pose proof (min_from64_elem_of key k0 d.*1) as Hin.
    set (r := Binary64.min_from key k0 d.*1) in *.
    change (k0 :: d.*1) with (((k0, z0) :: d).*1) in Hin.
    apply list_elem_of_fmap in Hin as ([k z] & Hr & Hin). cbn in Hr. subst k.
    exists r, z. split; [done|]. unfold Binary64.dict_getitem.
    by rewrite (dict_get64_own _ r z Hlook Hin).
Qed.

(** C7, amended.  The table holds the eleven entries of the source, and
    on each of its keys [get_z_score_for_service_level] returns that key's
    value (95 gives 1.65, 99 gives 2.33, 90 gives 1.28), as on every float
    equal to a key.  On any other percentage that is not a NaN it returns
    the value of the first table key whose distance [abs(k - p)], computed
    in binary64, is least; for 96 that is 1.65.  On a NaN it returns the
    first value of the table. *)
Theorem get_z_score_binary64 (p : float) :
  (Binary64.SafetyStockAlgorithm.service_levels
   = [ (50, 0.00); (75, 0.67); (80, 0.84); (85, 1.04); (90, 1.28); (95, 1.65);
       (97, 1.88); (98, 2.05); (99, 2.33); (99.5, 2.58); (99.9, 3.09) ]%float
   ∧ Forall (λ kv, Binary64.SafetyStockAlgorithm.get_z_score_for_service_level kv.1
                   = Ok kv.2)
       Binary64.SafetyStockAlgorithm.service_levels) ∧
  (∀ k z, (k, z) ∈ Binary64.SafetyStockAlgorithm.service_levels →
     (p =? k)%float = true →
     Binary64.SafetyStockAlgorithm.get_z_score_for_service_level p = Ok z) ∧
  (PrimFloat.is_nan p = false →
   Forall (λ kv, (kv.1 =? p)%float = false)
     Binary64.SafetyStockAlgorithm.service_levels →
     ∃ k z, Binary64.SafetyStockAlgorithm.get_z_score_for_service_level p = Ok z
            ∧ first_nearest64 Binary64.SafetyStockAlgorithm.service_levels p k z) ∧
  (PrimFloat.is_nan p = true →
     Binary64.SafetyStockAlgorithm.get_z_score_for_service_level p = Ok 0%float) ∧
  (Binary64.SafetyStockAlgorithm.get_z_score_for_service_level 95 = Ok 1.65%float
   ∧ Binary64.SafetyStockAlgorithm.get_z_score_for_service_level 99 = Ok 2.33%float
   ∧ Binary64.SafetyStockAlgorithm.get_z_score_for_service_level 90 = Ok 1.28%float
   ∧ Binary64.SafetyStockAlgorithm.get_z_score_for_service_level 96 = Ok 1.65%float).
Proof.
  split_and!; try reflexivity.
  - repeat constructor.
  - intros k z. apply get_z64_exact.
  - intros Hp Hkeys. apply get_z64_closest; [done|]. by apply dict_get64_None.
  - intros Hp. destruct (number_dec p) as [Hn|Hn].
    { apply is_nan_false in Hn. congruence. }
    unfold Binary64.SafetyStockAlgorithm.get_z_score_for_service_level.
    assert (Heq : ∀ k, (k =? p)%float = false).
    { intros k. rewrite FloatAxioms.eqb_spec. unfold SFeqb.
      by rewrite SFcompare_nan by auto. }
    assert (Hlt : ∀ k k', (PrimFloat.abs (k - p) <? PrimFloat.abs (k' - p))%float = false).
    { intros k k'. rewrite FloatAxioms.ltb_spec. unfold SFltb.
      rewrite SFcompare_nan; [done|]. left. by apply abs_nan, sub_nan_r. }
    cbn. by rewrite !Heq, !Hlt.
Qed.

Lemma get_z_score_binary64_witness :
  PrimFloat.is_nan 96 = false ∧
  Forall (λ kv, (kv.1 =? 96)%float = false)
    Binary64.SafetyStockAlgorithm.service_levels ∧
  ∃ k z, Binary64.SafetyStockAlgorithm.get_z_score_for_service_level 96 = Ok z
         ∧ first_nearest64 Binary64.SafetyStockAlgorithm.service_levels 96 k z.
Proof.
  assert (H1 : PrimFloat.is_nan 96 = false) by reflexivity.
  assert (H2 : Forall (λ kv, (kv.1 =? 96)%float = false)
                 Binary64.SafetyStockAlgorithm.service_levels)
    by repeat constructor.
  split; [exact H1|]. split; [exact H2|].
  exact (proj1 (proj2 (proj2 (get_z_score_binary64 96))) H1 H2).
Defined.

(** The key found need not be the nearest one.  For p = 1e17, which is
    no table key, the nearest key is 99.9; but the eleven distances round
    to three floats, the least of them is reached first at key 90, and
    the code returns 1.28, the value of 90, not 3.09. *)
Lemma get_z_score_counterexample :
  ∃ p k90 k999 : Qc,
    exact_value 1e17 = Some p ∧ exact_value 90 = Some k90
    ∧ exact_value 99.9 = Some k999
    ∧ py_abs (k999 - p) < py_abs (k90 - p)
    ∧ Forall (λ kv, ∃ k, exact_value kv.1 = Some k
                         ∧ py_abs (k999 - p) ≤ py_abs (k - p))
        Binary64.SafetyStockAlgorithm.service_levels
    ∧ Forall (λ kv, (kv.1 =? 1e17)%float = false)
        Binary64.SafetyStockAlgorithm.service_levels
    ∧ (90, 1.28)%float ∈ Binary64.SafetyStockAlgorithm.service_levels
    ∧ (99.9, 3.09)%float ∈ Binary64.SafetyStockAlgorithm.service_levels
    ∧ Binary64.SafetyStockAlgorithm.get_z_score_for_service_level 1e17
      = Ok 1.28%float.
Proof.
  eexists _, _, _. split_and!; [reflexivity..| | | | | |reflexivity].
  - apply (bool_decide_unpack _). by vm_compute.
  - repeat constructor;
      (eexists; split; [reflexivity|apply (bool_decide_unpack _); by vm_compute]).
  - repeat constructor.
  - do 4 apply list_elem_of_further. apply list_elem_of_here.
  - do 10 apply list_elem_of_further. apply list_elem_of_here.
Qed.

(** ** Service level and safety stock together *)

(** X23.  Every percentage, a NaN or an infinity included, gets a value
    of the table, between 0 and 3.09: no [KeyError], no empty [min]. *)
Theorem get_z_score_total_binary64 (p : float) :
  ∃ k z, (k, z) ∈ Binary64.SafetyStockAlgorithm.service_levels
    ∧ Binary64.SafetyStockAlgorithm.get_z_score_for_service_level p = Ok z
    ∧ (0 <=? z)%float = true ∧ (z <=? 3.09)%float = true.
Proof.
  destruct (get_z64_total p) as (k & z & Hin & Hz). exists k, z.
  pose proof (proj1 (list.Forall_forall _ _) service_levels_not_negative (k, z) Hin)
    as (_ & H0 & H1).
  by split_and!.
Qed.

(** X10.  The Z-score of any percentage is accepted by [calculate]: with a
    deviation and a lead time that do not compare below zero the two calls
    in sequence raise nothing, and the safety stock does not compare below
    zero. *)
Theorem safety_stock_for_service_level_binary64 (p sigma L : float) :
  (sigma <? 0)%float = false → (L <? 0)%float = false →
  ∃ z r, Binary64.SafetyStockAlgorithm.get_z_score_for_service_level p = Ok z
    ∧ Binary64.SafetyStockAlgorithm.calculate z sigma L = Ok r
    ∧ (r <? 0)%float = false.
Proof.
  intros Hs HL. destruct (get_z64_total p) as (k & z & Hin & Hz).
  pose proof (proj1 (list.Forall_forall _ _) service_levels_not_negative (k, z) Hin)
    as (Hneg & _ & _). cbn in Hneg.
  exists z, (z * sigma * PrimFloat.sqrt L)%float. split_and!; [done| |].
  - by apply safety_stock64_Ok.
  - apply mul_not_negative; [by apply mul_not_negative|by apply sqrt_not_negative].
Qed.

Lemma safety_stock_for_service_level_binary64_witness :
  (10 <? 0)%float = false ∧ (7 <? 0)%float = false ∧
  ∃ z r, Binary64.SafetyStockAlgorithm.get_z_score_for_service_level 95 = Ok z
    ∧ Binary64.SafetyStockAlgorithm.calculate z 10 7 = Ok r
    ∧ (r <? 0)%float = false.
Proof.
  split; [reflexivity|]. split; [reflexivity|].
  exact (safety_stock_for_service_level_binary64 95 10 7 eq_refl eq_refl).
Defined.

(** ** ABC analysis in binary64 *)

Lemma insert_desc64_perm x l : Binary64.insert_desc x l ≡ₚ x :: l.
Proof.
  induction l as [|y l IH]; cbn; [done|].
  destruct (x.2 <? y.2)%float; [|done].
  by rewrite IH, Permutation_swap.
Qed.

Lemma sort_desc64_perm l : Binary64.sort_desc l ≡ₚ l.
Proof.
  induction l as [|x l IH]; cbn; [done|]. by rewrite insert_desc64_perm, IH.
Qed.

Lemma insert_desc64_sorted x l :
  PrimFloat.is_nan x.2 = false →
  Forall (λ it, PrimFloat.is_nan it.2 = false) l →
  StronglySorted desc64 l → StronglySorted desc64 (Binary64.insert_desc x l).
Proof.
  intros Hx Hl. induction 1 as [|y l Hs IH Hy]; cbn.
  - repeat constructor.
  - apply list.Forall_cons in Hl as [Hy' Hl].
    destruct (x.2 <? y.2)%float eqn:Hlt.
    + constructor; [by apply IH|]. rewrite insert_desc64_perm.
      constructor; [|done]. by apply ltb_leb.
    + assert (Hxy : desc64 x y) by by apply ltb_false_leb.
      constructor; [by constructor|]. constructor; [done|].
      eapply List.Forall_impl; [|exact Hy]. intros z Hz. unfold desc64 in *.
      by eapply leb_trans64.
Qed.

Lemma sort_desc64_sorted l :
  Forall (λ it, PrimFloat.is_nan it.2 = false) l →
  StronglySorted desc64 (Binary64.sort_desc l).
Proof.
  induction 1 as [|x l Hx Hl IH]; cbn; [constructor|].
  apply insert_desc64_sorted; [done| |done]. by rewrite sort_desc64_perm.
Qed.

(** Stability: among the pairs of a given value the sort changes nothing. *)
Lemma insert_desc64_stable (v : float) x l :
  filter (λ it, (it.2 =? v)%float = true) (Binary64.insert_desc x l)
  = filter (λ it, (it.2 =? v)%float = true) (x :: l).
Proof.
  induction l as [|y l IH]; cbn; [done|].
  destruct (x.2 <? y.2)%float eqn:Hlt; [|done].
  rewrite (filter_cons _ y), IH, !filter_cons.
  destruct (decide ((x.2 =? v)%float = true)) as [Hx|Hx]; [|done].
  destruct (decide ((y.2 =? v)%float = true)) as [Hy|Hy]; [|done].
  by destruct (ltb_eqb_contra _ _ _ Hlt Hx Hy).
Qed.

Lemma sort_desc64_stable (v : float) l :
  filter (λ it, (it.2 =? v)%float = true) (Binary64.sort_desc l)
  = filter (λ it, (it.2 =? v)%float = true) l.
Proof.
  induction l as [|x l IH]; cbn; [done|].
  by rewrite insert_desc64_stable, !filter_cons, IH.
Qed.

Lemma sort_desc64_nil_inv l : Binary64.sort_desc l = [] → l = [].
Proof.
  intros Hs. apply Permutation_nil_r. by rewrite <- Hs, sort_desc64_perm.
Qed.

Section classification64.
Import Binary64.ABCAnalysisAlgorithm.
Context (version : Binary64.summation).
Implicit Types (items : list (string * float * float)) (l : list (string * float)).
Implicit Types (m : gmap string string) (c total v : float) (pid : string).

Lemma classify64_Ok total m c pid v :
  (total =? 0)%float = false →
  classify total (m, c) (pid, v)
  = Ok (<[pid := tier64 (c / total * 100)]> m, (c + v)%float).
Proof.
  intros Ht. unfold classify, tier64. rewrite truediv64_Ok by done. cbn.
  by repeat case_match.
Qed.

Lemma classify64_zero total m c pid v :
  (total =? 0)%float = true →
  classify total (m, c) (pid, v) = Raise ZeroDivisionError.
Proof. intros Ht. unfold classify, Binary64.truediv. by rewrite Ht. Qed.

Lemma last_with64_exists l pid : pid ∈ l.*1 → ∃ i v, last_with64 l i pid v.
Proof.
  unfold last_with64. induction l as [|[p0 v0] l IH]; cbn.
  { by intros ?%elem_of_nil. }
  intros Hin. destruct (decide (pid ∈ l.*1)) as [Hl|Hl].
  - destruct (IH Hl) as (i & v & Hi & Hlast). by exists (S i), v.
  - apply elem_of_cons in Hin as [->|]; [|done]. by exists 0%nat, v0.
Qed.

(** The classification loop, from any state: it runs to the end, adds the
    values one by one to the running total, and leaves each product id of
    the list with the class of the percentage reached before the last item
    of that id. *)
Lemma for_each_classify64 total l m c :
  (total =? 0)%float = false →
  ∃ m', for_each (classify total) (m, c) l = Ok (m', foldl PrimFloat.add c l.*2)
    ∧ dom m' = dom m ∪ list_to_set l.*1
    ∧ (∀ pid, pid ∉ l.*1 → m' !! pid = m !! pid)
    ∧ (∀ i pid v, last_with64 l i pid v →
         m' !! pid
         = Some (tier64 (foldl PrimFloat.add c (take i l).*2 / total * 100))).
Proof.
  intros Ht. revert m c. induction l as [|[p0 v0] l IH]; intros m c.
  { exists m. cbn. split_and!; [done| |done|].
    - by rewrite (right_id_L ∅ (∪)).
    - by intros i pid v [? _]. }
  cbn [for_each]. rewrite classify64_Ok by done. cbn [mbind result_bind].
  destruct (IH (<[p0 := tier64 (c / total * 100)]> m) (c + v0)%float)
    as (m' & Hrun & Hdom & Hout & Hin).
  exists m'. split_and!.
  - by rewrite Hrun.
  - rewrite Hdom, dom_insert_L. cbn.
    by rewrite (comm_L (∪) {[p0]}), <- (assoc_L (∪)).
  - cbn. intros pid [Hne Hl]%not_elem_of_cons.
    by rewrite Hout, lookup_insert_ne.
  - intros [|i] pid v [Hi Hlast]; cbn in Hi, Hlast.
    + injection Hi as -> ->. rewrite drop_0 in Hlast.
      by rewrite Hout, lookup_insert_eq by done.
    + by rewrite (Hin i pid v).
Qed.

Lemma tier64_cases percent : tier64 percent ∈ ["A"; "B"; "C"].
Proof. unfold tier64. repeat case_match; repeat constructor. Qed.

Lemma tier64_zero total :
  PrimFloat.is_nan total = false → (total =? 0)%float = false →
  tier64 (0 / total * 100) = "A".
Proof.
  intros Hn%is_nan_false Ht. destruct (zero_percent total Hn Ht) as [s Hs].
  unfold tier64. rewrite FloatAxioms.ltb_spec, Hs. by destruct s.
Qed.

Lemma calculate64_unfold items :
  items ≠ [] →
  calculate version items
  = st ← for_each (classify (total_value64 version items)) (∅, 0%float)
           (Binary64.sort_desc (item_values items)); Ok st.1.
Proof. intros Hne. by destruct items as [|it items]. Qed.

Lemma item_values64_ids items : (item_values items).*1 = items.*1.*1.
Proof.
  unfold item_values. induction items as [|[[pid uc] ad] items IH]; cbn; [done|].
  by f_equal.
Qed.

Lemma total_value64_nonempty items :
  (total_value64 version items =? 0)%float = false → items ≠ [].
Proof. intros Ht ->. by destruct version. Qed.

(** What [calculate] returns when the total is not zero. *)
Lemma calculate64_Ok items :
  (total_value64 version items =? 0)%float = false →
  ∃ m, calculate version items = Ok m
    ∧ dom m = list_to_set items.*1.*1
    ∧ (∀ i pid v, last_with64 (Binary64.sort_desc (item_values items)) i pid v →
         m !! pid
         = Some (tier64 (cumulative64 (Binary64.sort_desc (item_values items)) i
                         / total_value64 version items * 100))).
Proof.
  intros Ht. rewrite calculate64_unfold by by apply total_value64_nonempty.
  destruct (for_each_classify64 (total_value64 version items)
              (Binary64.sort_desc (item_values items)) ∅ 0%float Ht)
    as (m & -> & Hdom & _ & Hin).
  exists m. split_and!; [done| |done].
  rewrite Hdom, dom_empty_L, (left_id_L ∅ (∪)), <- item_values64_ids.
  apply list_to_set_perm_L, fmap_Permutation, sort_desc64_perm.
Qed.

Lemma calculate64_zero_total items :
  items ≠ [] → (total_value64 version items =? 0)%float = true →
  calculate version items = Raise ZeroDivisionError.
Proof.
  intros Hne Ht. rewrite calculate64_unfold by done.
  destruct (Binary64.sort_desc (item_values items)) as [|[p v] l] eqn:Hs.
  - by apply sort_desc64_nil_inv, fmap_nil_inv in Hs.
  - cbn [for_each]. by rewrite classify64_zero.
Qed.

Lemma single_total64 pid uc ad :
  no_nan_value [(pid, uc, ad)] →
  PrimFloat.is_nan (total_value64 version [(pid, uc, ad)]) = false.
Proof.
  intros Hn. apply list.Forall_cons in Hn as [Hn _]. cbn in Hn.
  replace (total_value64 version [(pid, uc, ad)]) with (0 + uc * ad)%float
    by by destruct version.
  apply is_nan_false, zero_add_number. by apply is_nan_false.
Qed.

(** C1, amended.  Whichever way [sum] rounds: on a non-empty list none of
    whose values is a NaN and whose total is not zero, [calculate] takes the
    binary64 product [unit_cost * annual_demand] as the value of each item,
    sorts the items by value, descending and stable, and returns a mapping
    in which a product id has the class of the percentage
    [(cumulative / total) * 100], computed in binary64 before the last item
    of that id in sorted order is added: A below 80, B below 95, C
    otherwise.  The first item in sorted order is classified A when the
    total is not a NaN and its id does not occur again, and so is a single
    item. *)
Theorem abc_classification_binary64 items :
  items ≠ [] →
  no_nan_value items →
  (total_value64 version items =? 0)%float = false →
  (∀ (i : nat) pid uc ad,
     items !! i = Some (pid, uc, ad) →
     item_values items !! i = Some (pid, (uc * ad)%float)) ∧
  (Binary64.sort_desc (item_values items) ≡ₚ item_values items
   ∧ StronglySorted desc64 (Binary64.sort_desc (item_values items))
   ∧ ∀ v, filter (λ it, (it.2 =? v)%float = true)
            (Binary64.sort_desc (item_values items))
          = filter (λ it, (it.2 =? v)%float = true) (item_values items)) ∧
  ∃ m, calculate version items = Ok m
    ∧ (∀ i pid v, last_with64 (Binary64.sort_desc (item_values items)) i pid v →
         m !! pid
         = Some (tier64 (cumulative64 (Binary64.sort_desc (item_values items)) i
                         / total_value64 version items * 100)))
    ∧ (PrimFloat.is_nan (total_value64 version items) = false →
       ∀ pid v, last_with64 (Binary64.sort_desc (item_values items)) 0 pid v →
         m !! pid = Some "A")
    ∧ (∀ pid uc ad, items = [(pid, uc, ad)] → m = {[ pid := "A" ]}).
Proof.
  intros _ Hnan Ht. split_and!.
  - intros i pid uc ad Hi. unfold item_values. by rewrite list_lookup_fmap, Hi.
  - apply sort_desc64_perm.
  - by apply sort_desc64_sorted.
  - intros v. apply sort_desc64_stable.
  - destruct (calculate64_Ok items Ht) as (m & Hm & Hdom & Hin).
    assert (Hfirst : PrimFloat.is_nan (total_value64 version items) = false →
      ∀ pid v, last_with64 (Binary64.sort_desc (item_values items)) 0 pid v →
        m !! pid = Some "A").
    { intros Hnt pid v Hlast. rewrite (Hin 0%nat pid v Hlast). cbn [take].
      change (cumulative64 _ 0) with 0%float. by rewrite tier64_zero. }
    exists m. split_and!; [done..|].
    intros pid uc ad ->. apply map_eq. intros pid'.
    destruct (decide (pid' = pid)) as [->|Hne].
    + rewrite lookup_singleton_eq.
      apply (Hfirst (single_total64 pid uc ad Hnan) pid (uc * ad)%float).
      split; [done|]. cbn. apply not_elem_of_nil.
    + rewrite lookup_singleton_ne by done. apply not_elem_of_dom.
      rewrite Hdom. cbn.
      rewrite elem_of_union, elem_of_singleton, elem_of_empty. tauto.
Qed.

(** C3, amended.  The empty list gives the empty mapping and no error.
    Whichever way [sum] rounds, on a list none of whose values is a NaN
    and whose total is not zero, [calculate] returns a mapping whose values are
    all among A, B and C, whose keys are the product ids of the input, and
    which therefore has as many entries as the input has distinct product
    ids: as many as items when the ids are pairwise distinct.  A single
    item is classified A, and in the example P001 is A and P003 is C. *)
Theorem abc_mapping_binary64 items :
  calculate version [] = Ok ∅ ∧
  (no_nan_value items → (total_value64 version items =? 0)%float = false →
   ∃ m, calculate version items = Ok m
     ∧ (∀ pid (class : string), m !! pid = Some class → class ∈ ["A"; "B"; "C"])
     ∧ dom m = list_to_set items.*1.*1
     ∧ size m = length (remove_dups items.*1.*1)
     ∧ (NoDup items.*1.*1 → size m = length items)
     ∧ (∀ pid uc ad, items = [(pid, uc, ad)] → m !! pid = Some "A")) ∧
  (∃ m, calculate version
          [("P001", 100, 1000); ("P002", 10, 500); ("P003", 5, 200)]%float
        = Ok m
     ∧ size m = 3%nat ∧ m !! "P001" = Some "A" ∧ m !! "P003" = Some "C").
Proof.
  split_and!.
  - done.
  - intros Hnan Ht. destruct (calculate64_Ok items Ht) as (m & Hm & Hdom & Hin).
    assert (Hsize : size m = length (remove_dups items.*1.*1)).
    { by rewrite <- size_dom, Hdom, size_list_to_set_remove_dups. }
    exists m. split_and!; [done| |done|done| |].
    + intros pid class Hc.
      assert (Hpid : pid ∈ (Binary64.sort_desc (item_values items)).*1).
      { rewrite sort_desc64_perm, item_values64_ids.
        apply (elem_of_list_to_set (C:=gset string)). rewrite <- Hdom.
        by apply elem_of_dom. }
      apply last_with64_exists in Hpid as (i & v & Hlast).
      rewrite (Hin i pid v Hlast) in Hc. injection Hc as <-.
      apply tier64_cases.
    + intros Hnd.
      by rewrite <- size_dom, Hdom, size_list_to_set, !length_fmap.
    + intros pid uc ad ->. rewrite (Hin 0%nat pid (uc * ad)%float).
      * change (cumulative64 _ 0) with 0%float.
        by rewrite tier64_zero by by try apply single_total64.
      * split; [done|]. cbn. apply not_elem_of_nil.
  - destruct version; (eexists; split; [by vm_compute|]; by vm_compute).
Qed.

End classification64.

Lemma abc_classification_binary64_witness :
  abc_example64 ≠ [] ∧ no_nan_value abc_example64
  ∧ (total_value64 Binary64.Plain abc_example64 =? 0)%float = false ∧
  ∃ m, Binary64.ABCAnalysisAlgorithm.calculate Binary64.Plain abc_example64 = Ok m
       ∧ (PrimFloat.is_nan (total_value64 Binary64.Plain abc_example64) = false →
          ∀ pid v,
           last_with64
             (Binary64.sort_desc (Binary64.ABCAnalysisAlgorithm.item_values abc_example64))
             0 pid v →
           m !! pid = Some "A").
Proof.
  assert (H1 : abc_example64 ≠ []) by done.
  assert (H2 : no_nan_value abc_example64) by repeat constructor.
  assert (H3 : (total_value64 Binary64.Plain abc_example64 =? 0)%float = false)
    by reflexivity.
  split; [exact H1|]. split; [exact H2|]. split; [exact H3|].
  destruct (abc_classification_binary64 Binary64.Plain abc_example64 H1 H2 H3)
    as (_ & _ & m & Hm & _ & Hfirst & _).
  exists m. by split.
Defined.

(** Where the claim fails, whichever way [sum] rounds.  A single item of
    value zero is not classified: the division fails.  Of two items with
    one product id the first in sorted order ends up B.  Values that
    overflow to [inf] and [-inf] add up to a NaN, and every item is C, the
    first included.  And the class follows the rounded percentage: in
    [abc_rounding] the exact share before P0 is below 80 per cent, the
    binary64 share is 80.0, and P0 is B. *)
Lemma abc_classification_counterexample :
  Forall (λ version,
  (Binary64.ABCAnalysisAlgorithm.calculate version [("P001", 0, 0)]%float
   = Raise ZeroDivisionError) ∧
  (Binary64.sort_desc (Binary64.ABCAnalysisAlgorithm.item_values abc_same_id64)
     !! 0%nat = Some ("P001", 10%float)
   ∧ Binary64.ABCAnalysisAlgorithm.calculate version abc_same_id64
     = Ok {[ "P001" := "B" ]}) ∧
  (no_nan_value abc_overflowing
   ∧ Binary64.sort_desc (Binary64.ABCAnalysisAlgorithm.item_values abc_overflowing)
       !! 0%nat = Some ("P1", infinity)
   ∧ Binary64.ABCAnalysisAlgorithm.calculate version abc_overflowing
     = Ok {[ "P1" := "C"; "P2" := "C" ]}) ∧
  (∃ c0 d0 c1 d1 c2 d2 : Qc,
     exact_value 11.07 = Some c0 ∧ exact_value 8 = Some d0
     ∧ exact_value 8.43 = Some c1 ∧ exact_value 48 = Some d1
     ∧ exact_value 0.36 = Some c2 ∧ exact_value 35 = Some d2
     ∧ c2 * d2 < c0 * d0 ∧ c0 * d0 < c1 * d1
     ∧ c1 * d1 / (c1 * d1 + c0 * d0 + c2 * d2) * 100 < 80
     ∧ Binary64.sort_desc (Binary64.ABCAnalysisAlgorithm.item_values abc_rounding)
       = [("P1", 8.43 * 48); ("P0", 11.07 * 8); ("P2", 0.36 * 35)]%float
     ∧ (8.43 * 48 / total_value64 version abc_rounding * 100 =? 80)%float = true
     ∧ ∃ m, Binary64.ABCAnalysisAlgorithm.calculate version abc_rounding = Ok m
            ∧ m !! "P0" = Some "B"))
    [Binary64.Plain; Binary64.Compensated].
Proof.
  apply list.Forall_forall. intros version _. split_and!.
  - by destruct version.
  - reflexivity.
  - by destruct version; vm_compute.
  - repeat constructor.
  - reflexivity.
  - by destruct version; vm_compute.
  - eexists _, _, _, _, _, _. split_and!; [reflexivity..| | | |reflexivity| |].
    + apply (bool_decide_unpack _). by vm_compute.
    + apply (bool_decide_unpack _). by vm_compute.
    + apply (bool_decide_unpack _). by vm_compute.
    + by destruct version.
    + destruct version; (eexists; split; [by vm_compute|]; by vm_compute).
Qed.

Lemma abc_mapping_binary64_witness :
  no_nan_value abc_example64
  ∧ (total_value64 Binary64.Plain abc_example64 =? 0)%float = false ∧
  ∃ m, Binary64.ABCAnalysisAlgorithm.calculate Binary64.Plain abc_example64 = Ok m
       ∧ size m = length abc_example64.
Proof.
  assert (H2 : no_nan_value abc_example64) by repeat constructor.
  assert (H3 : (total_value64 Binary64.Plain abc_example64 =? 0)%float = false)
    by reflexivity.
  split; [exact H2|]. split; [exact H3|].
  destruct (proj1 (proj2 (abc_mapping_binary64 Binary64.Plain abc_example64)) H2 H3)
    as (m & Hm & _ & _ & _ & Hsize & _).
  exists m. split; [exact Hm|]. apply Hsize.
  apply (bool_decide_unpack _). by vm_compute.
Defined.

(** Where the claim fails, whichever way [sum] rounds.  Two items with one
    product id give one entry.  A single item of value zero gives no
    mapping.  And values that cancel in binary64 give none either,
    although their exact sum is not zero. *)
Lemma abc_mapping_counterexample :
  Forall (λ version,
  (∃ m, Binary64.ABCAnalysisAlgorithm.calculate version abc_same_id64 = Ok m
        ∧ size m = 1%nat ∧ length abc_same_id64 = 2%nat) ∧
  ¬ returns (Binary64.ABCAnalysisAlgorithm.calculate version [("P001", 0, 0)]%float) ∧
  (∃ c1 d1 c2 d2 : Qc,
     exact_value 4.5 = Some c1 ∧ exact_value 7 = Some d1
     ∧ exact_value (-1.05) = Some c2 ∧ exact_value 30 = Some d2
     ∧ c1 * d1 + c2 * d2 ≠ 0
     ∧ ¬ returns (Binary64.ABCAnalysisAlgorithm.calculate version abc_cancelling)))
    [Binary64.Plain; Binary64.Compensated].
Proof.
  apply list.Forall_forall. intros version _. split_and!.
  - exists {[ "P001" := "B" ]}. by destruct version; vm_compute.
  - intros [m Hm]. by destruct version.
  - eexists _, _, _, _. split_and!; [reflexivity..| |].
    + apply (bool_decide_unpack _). by vm_compute.
    + intros [m Hm]. by destruct version.
Qed.

(** ** ABC analysis: failure and order *)

(** X20.  Whichever way [sum] rounds, [calculate] raises in one case
    only: a non-empty list whose total is a zero, cancelling positive and
    negative values included, fails with [ZeroDivisionError]; every other
    list is classified. *)
Theorem abc_raises_binary64 (version : Binary64.summation)
    (items : list (string * float * float)) :
  (Binary64.ABCAnalysisAlgorithm.calculate version items = Raise ZeroDivisionError
   ↔ items ≠ [] ∧ (total_value64 version items =? 0)%float = true) ∧
  (∀ e, Binary64.ABCAnalysisAlgorithm.calculate version items = Raise e
        → e = ZeroDivisionError) ∧
  (items = [] ∨ (total_value64 version items =? 0)%float = false →
   returns (Binary64.ABCAnalysisAlgorithm.calculate version items)).
Proof.
  destruct (decide (items = [])) as [->|Hne].
  { split_and!; [|done|intros _; by eexists]. split; [done|]. by intros [? _]. }
  destruct (total_value64 version items =? 0)%float eqn:Ht.
  - rewrite calculate64_zero_total by done. split_and!; [done| |].
    + by intros e [= <-].
    + by intros [?|?].
  - destruct (calculate64_Ok version items Ht) as (m & -> & _). split_and!; [|done|].
    + split; [done|]. by intros [_ ?].
    + intros _. by eexists.
Qed.

Lemma abc_raises_binary64_witness :
  Binary64.ABCAnalysisAlgorithm.calculate Binary64.Plain abc_cancelling
  = Raise ZeroDivisionError.
Proof.
  apply (proj1 (abc_raises_binary64 Binary64.Plain abc_cancelling)).
  split; [done|reflexivity].
Defined.

(** X24.  Whether [calculate] raises can depend on the version of
    CPython: the values 1e16, 1 and -1e16 add up to 0 when [sum] rounds
    after every addition, and the division fails; with the compensated
    [sum] they add up to 1, and the items are classified. *)
Theorem abc_depends_on_summation :
  Binary64.ABCAnalysisAlgorithm.calculate Binary64.Plain abc_absorbing
  = Raise ZeroDivisionError ∧
  Binary64.ABCAnalysisAlgorithm.calculate Binary64.Compensated abc_absorbing
  = Ok {[ "P1" := "A"; "P2" := "C"; "P3" := "C" ]}.
Proof. split; [reflexivity|by vm_compute]. Qed.

Lemma mul_number (x y : float) :
  PrimFloat.is_finite x = true → PrimFloat.is_finite y = true → number (x * y).
Proof.
  rewrite !is_finite_spec. unfold number. rewrite FloatAxioms.mul_spec. unfold SF64mul.
  destruct (Prim2SF x) as [[]|[]| |[] mx ex], (Prim2SF y) as [[]|[]| |[] my ey];
    cbn; try done; intros _ _; by apply round_number.
Qed.

(** X25.  Finite unit costs and demands never give a NaN value: a product
    may overflow to an infinity, but the sort compares all values. *)
Theorem finite_items_no_nan (items : list (string * float * float)) :
  Forall (λ it, PrimFloat.is_finite it.1.2 = true ∧ PrimFloat.is_finite it.2 = true)
    items →
  no_nan_value items.
Proof.
  unfold no_nan_value, Binary64.ABCAnalysisAlgorithm.item_values.
  induction 1 as [|[[pid uc] ad] items [Huc Had] _ IH]; cbn; constructor; [|done].
  cbn in *. by apply is_nan_false, mul_number.
Qed.

Lemma finite_items_no_nan_witness :
  Forall (λ it, PrimFloat.is_finite it.1.2 = true ∧ PrimFloat.is_finite it.2 = true)
    abc_overflowing
  ∧ no_nan_value abc_overflowing.
Proof.
  assert (H : Forall (λ it, PrimFloat.is_finite it.1.2 = true
                            ∧ PrimFloat.is_finite it.2 = true) abc_overflowing)
    by repeat constructor.
  split; [exact H|]. exact (finite_items_no_nan abc_overflowing H).
Defined.

Section classification_order64.
Import Binary64.ABCAnalysisAlgorithm.
Implicit Types (items : list (string * float * float)) (l : list (string * float)).

Lemma sort_desc64_distinct_values l l' :
  l ≡ₚ l' → Forall (λ it, PrimFloat.is_nan it.2 = false) l →
  distinct_values64 l →
  Binary64.sort_desc l = Binary64.sort_desc l'.
Proof.
  intros Hperm Hnum Hd.
  apply (StronglySorted_unique_strong desc64).
  - intros x1 x2 Hx1 Hx2 H12 H21.
    rewrite sort_desc64_perm in Hx1. rewrite sort_desc64_perm, <- Hperm in Hx2.
    apply list_elem_of_lookup in Hx1 as [i Hi]. apply list_elem_of_lookup in Hx2 as [j Hj].
    assert (i = j) as ->; [|congruence].
    apply (Hd i j x1 x2 Hi Hj). by apply leb_antisym64.
  - by apply sort_desc64_sorted.
  - apply sort_desc64_sorted. by rewrite <- Hperm.
  - by rewrite !sort_desc64_perm.
Qed.

(** X21.  When no value is a NaN and no two items have equal values, the
    classification does not depend on the order in which the items are
    given. *)
Theorem abc_order_independent_binary64 version items items' :
  items ≡ₚ items' →
  no_nan_value items →
  distinct_values64 (item_values items) →
  calculate version items = calculate version items'.
Proof.
  intros Hperm Hnum Hd.
  assert (Hs : Binary64.sort_desc (item_values items)
               = Binary64.sort_desc (item_values items')).
  { apply sort_desc64_distinct_values; [|done..]. unfold item_values.
    by apply fmap_Permutation. }
  destruct items as [|it items], items' as [|it' items'].
  - done.
  - by apply Permutation_nil_l in Hperm.
  - by apply Permutation_nil_r in Hperm.
  - unfold calculate. by rewrite Hs.
Qed.

End classification_order64.

Lemma abc_order_independent_binary64_witness :
  abc_example64
    ≡ₚ [("P003", 5, 200); ("P001", 100, 1000); ("P002", 10, 500)]%float
  ∧ no_nan_value abc_example64
  ∧ Binary64.ABCAnalysisAlgorithm.calculate Binary64.Plain abc_example64
    = Binary64.ABCAnalysisAlgorithm.calculate Binary64.Plain
        [("P003", 5, 200); ("P001", 100, 1000); ("P002", 10, 500)]%float.
Proof.
  assert (H1 : abc_example64
    ≡ₚ [("P003", 5, 200); ("P001", 100, 1000); ("P002", 10, 500)]%float).
  { unfold abc_example64. etrans; [|apply Permutation_swap].
    etrans; [apply perm_skip, Permutation_swap|]. done. }
  assert (H2 : no_nan_value abc_example64) by repeat constructor.
  split; [exact H1|]. split; [exact H2|].
  apply abc_order_independent_binary64; [exact H1|exact H2|].
  intros [|[|[|i]]] [|[|[|j]]] x y Hi Hj; cbn in Hi, Hj; try done;
    injection Hi as <-; injection Hj as <-; by vm_compute.
Defined.
